(** * cloudflareAAAA: one reconciliation pass of an AAAA record

    A shallow embedding of [cloudflareAAAA.py].  The script asks an
    address service for the machine's public IPv6 address, lists the DNS
    records of one Cloudflare zone, and creates, updates or deletes records
    so that the configured host name carries that address.

    The script is sequential Python whose only effects are HTTP requests,
    lines on standard output and uncaught exceptions.  It is embedded in a
    small monad that threads the state of the outside world, collects the
    events of the run in order and stops at the first exception. *)

From Stdlib Require Import List String Ascii ZArith Bool Lia.
Import ListNotations.
Open Scope string_scope.
Open Scope list_scope.

Set Warnings "-register-all".

(** ** Values decoded from JSON *)

(** What [Response.json()] hands to the script.  A decoded object is a
    Python dict; it is kept as its list of bindings in insertion order, one
    per key.  Numbers are never looked into, so integers stand for them. *)
Inductive json : Type :=
| JNull
| JBool (b : bool)
| JNum (n : Z)
| JStr (s : string)
| JArr (items : list json)
| JObj (fields : list (string * json)).

(** The exceptions the script can die from. *)
Inductive exn : Type :=
| RequestException          (* raised by requests.get/post/patch/delete *)
| JSONDecodeError           (* raised by Response.json() *)
| KeyError (key : string)   (* d[key] on a dict without that key *)
| TypeError                 (* subscript or iteration of the wrong kind of value *)
| IndexError.               (* l[0] on an empty list *)

(** An evaluation either returns a value or raises. *)
Inductive outcome (A : Type) : Type :=
| Returned (a : A)
| Raised (e : exn).
Arguments Returned {A} a.
Arguments Raised {A} e.

Fixpoint lookup (key : string) (fields : list (string * json)) : option json :=
  match fields with
  | [] => None
  | (k, v) :: rest => if String.eqb k key then Some v else lookup key rest
  end.

(** [v[key]] for a string key: only a dict answers; a list or a string
    wants integer indices, the other values are not subscriptable. *)
Definition subscript (v : json) (key : string) : outcome json :=
  match v with
  | JObj fields =>
      match lookup key fields with
      | Some x => Returned x
      | None => Raised (KeyError key)
      end
  | _ => Raised TypeError
  end.

(** [v == s] for a Python str [s]: a value of another type is unequal. *)
Definition py_eq_str (v : json) (s : string) : bool :=
  match v with
  | JStr t => String.eqb t s
  | _ => false
  end.

Fixpoint chars (s : string) : list json :=
  match s with
  | EmptyString => []
  | String c rest => JStr (String c EmptyString) :: chars rest
  end.

(** [for post in v]: a list yields its items, a dict its keys, a str its
    characters; the other values are not iterable. *)
Definition iterate (v : json) : outcome (list json) :=
  match v with
  | JArr items => Returned items
  | JObj fields => Returned (map (fun kv => JStr (fst kv)) fields)
  | JStr s => Returned (chars s)
  | _ => Raised TypeError
  end.

(** ** Requests and responses *)

Inductive method : Type := GET | POST | PATCH | DELETE.

(** The three URLs the script formats.  The record identifier is whatever
    value the fetched record carried under ["id"]. *)
Inductive url : Type :=
| IpInfoIp                                                 (* https://v6.ipinfo.io/ip *)
| DnsRecords (zone_identifier : string)                    (* .../zones/{zone}/dns_records *)
| DnsRecord (zone_identifier : string) (identifier : json). (* .../dns_records/{identifier} *)

(** [data] is the dict handed to [json.dumps]. *)
Record request : Type := mkRequest {
  req_method : method;
  req_url : url;
  req_authorization : option string;
  req_data : option json
}.

(** [resp_json] is what [.json()] decodes from the body, [None] when the
    body is not JSON. *)
Record Response : Type := mkResponse {
  status_code : Z;
  text : string;
  resp_json : option json
}.

Definition json_of (r : Response) : outcome json :=
  match resp_json r with
  | Some v => Returned v
  | None => Raised JSONDecodeError
  end.

(** ** Events of a run *)

(** The lines the script prints, before formatting. *)
Inductive line : Type :=
| NoKnowledge (public_ipv6 : string)
| NotSame (old : json) (public_ipv6 : string)
| SpareExists
| Removing (id address : json).

Inductive event : Type :=
| Call (r : request) (answer : outcome Response)
| Print (l : line).

Definition is_call (m : method) (e : event) : bool :=
  match e with
  | Call r _ =>
      match req_method r, m with
      | GET, GET | POST, POST | PATCH, PATCH | DELETE, DELETE => true
      | _, _ => false
      end
  | Print _ => false
  end.

Definition request_of (e : event) : list request :=
  match e with
  | Call r _ => [r]
  | Print _ => []
  end.

(** The requests of a trace with a given method, in the order issued. *)
Definition calls (m : method) (t : list event) : list request :=
  flat_map request_of (filter (is_call m) t).

Definition creates := calls POST.
Definition updates := calls PATCH.
Definition deletes := calls DELETE.

(** Every request that changes the provider's records. *)
Definition writes (t : list event) : list request :=
  creates t ++ updates t ++ deletes t.

(** ** Configuration *)

Definition HOSTNAME : string := "server.f-lg9.gnutt.se".
Definition APIKEY : string := "3uXCpBMuvOD2h0lrcYEQOrzMv5RfXgLESuDfUAlD".
Definition CLOUDFLARE_ZONE_ID : string := "3567bb2acf4f93be3663c5cf62483f70".

Definition bearer : option string := Some ("Bearer " ++ APIKEY)%string.

(** The dict [{"type": type, "name": name, "content": content}]. *)
Definition newdata (type name content : string) : json :=
  JObj [("type", JStr type); ("name", JStr name); ("content", JStr content)].

(** The list comprehension of [__main], on the items of [allposts]:
    [post['type']] is evaluated only when the name test passed. *)
Fixpoint stored_posts_of (allposts : list json) : outcome (list json) :=
  match allposts with
  | [] => Returned []
  | post :: rest =>
      match subscript post "name" with
      | Raised e => Raised e
      | Returned name =>
          let keep :=
            if py_eq_str name HOSTNAME then
              match subscript post "type" with
              | Raised e => Raised e
              | Returned type => Returned (py_eq_str type "AAAA")
              end
            else Returned false in
          match keep with
          | Raised e => Raised e
          | Returned k =>
              match stored_posts_of rest with
              | Raised e => Raised e
              | Returned tl => Returned (if k then post :: tl else tl)
              end
          end
      end
  end.

(** ** The script, over an arbitrary outside world *)

Section Script.

Context {World : Type}.

(** What the network does with a request: the world moves on and the
    call returns a response or raises. *)
Variable send : request -> World -> World * outcome Response.

Record run (A : Type) : Type := mkRun {
  final : World;
  events : list event;
  result : outcome A
}.
Arguments mkRun {A}.
Arguments final {A}.
Arguments events {A}.
Arguments result {A}.

Definition M (A : Type) : Type := World -> run A.

Definition ret {A} (a : A) : M A := fun w => mkRun w [] (Returned a).

Definition lift {A} (o : outcome A) : M A := fun w => mkRun w [] o.

Definition bind {A B} (m : M A) (k : A -> M B) : M B := fun w =>
  let r := m w in
  match result r with
  | Raised e => mkRun (final r) (events r) (Raised e)
  | Returned a =>
      let r' := k a (final r) in
      mkRun (final r') (events r ++ events r') (result r')
  end.

Definition print (l : line) : M unit := fun w => mkRun w [Print l] (Returned tt).

Definition http (r : request) : M Response := fun w =>
  let (w', answer) := send r w in mkRun w' [Call r answer] answer.

Notation "x <- m ;; k" := (bind m (fun x => k))
  (at level 100, m at next level, right associativity).
Notation "m ;;; k" := (bind m (fun _ => k))
  (at level 100, right associativity).

Fixpoint for_each {A} (l : list A) (body : A -> M unit) : M unit :=
  match l with
  | [] => ret tt
  | x :: rest => body x ;;; for_each rest body
  end.

Definition create_dns_post (type name content : string) : M Response :=
  response <- http (mkRequest POST (DnsRecords CLOUDFLARE_ZONE_ID) bearer
                              (Some (newdata type name content))) ;;
  ret response.

Definition fetch_all_dns : M json :=
  data <- http (mkRequest GET (DnsRecords CLOUDFLARE_ZONE_ID) bearer None) ;;
  decoded <- lift (json_of data) ;;
  lift (subscript decoded "result").

Definition update_dns_post (id : json) (type name content : string) : M json :=
  result <- http (mkRequest PATCH (DnsRecord CLOUDFLARE_ZONE_ID id) bearer
                            (Some (newdata type name content))) ;;
  decoded <- lift (json_of result) ;;
  lift (subscript decoded "result").

Definition delete_dns_post (id : json) : M json :=
  result <- http (mkRequest DELETE (DnsRecord CLOUDFLARE_ZONE_ID id) bearer None) ;;
  decoded <- lift (json_of result) ;;
  lift (subscript decoded "result").

(** The body of the [for] loop over [stored_posts[1:]]. *)
Definition remove_post (stored_post : json) : M unit :=
  id <- lift (subscript stored_post "id") ;;
  address <- lift (subscript stored_post "content") ;;
  print (Removing id address) ;;;
  id <- lift (subscript stored_post "id") ;;
  delete_dns_post id ;;;
  ret tt.

Definition __main : M Z :=
  ip <- http (mkRequest GET IpInfoIp None None) ;;
  let public_ipv6 := text ip in
  allposts <- fetch_all_dns ;;
  posts <- lift (iterate allposts) ;;
  stored_posts <- lift (stored_posts_of posts) ;;
  (if (List.length stored_posts =? 0)%nat then
     print (NoKnowledge public_ipv6) ;;;
     create_dns_post "AAAA" HOSTNAME public_ipv6 ;;;
     ret tt
   else ret tt) ;;;
  (if (0 <? List.length stored_posts)%nat then
     stored_post <- lift (match stored_posts with
                          | p :: _ => Returned p
                          | [] => Raised IndexError
                          end) ;;
     content <- lift (subscript stored_post "content") ;;
     if negb (py_eq_str content public_ipv6) then
       old <- lift (subscript stored_post "content") ;;
       print (NotSame old public_ipv6) ;;;
       id <- lift (subscript stored_post "id") ;;
       update_dns_post id "AAAA" HOSTNAME public_ipv6 ;;;
       ret tt
     else ret tt
   else ret tt) ;;;
  (if (1 <? List.length stored_posts)%nat then
     print SpareExists ;;;
     for_each (tl stored_posts) remove_post
   else ret tt) ;;;
  ret 0%Z.

(** The module level: [__main()] is called and its value dropped.  The
    interpreter ends with status 0 after the last statement and with
    status 1 on an uncaught exception. *)
Definition exit_status (w : World) : Z :=
  match result (__main w) with
  | Returned _ => 0
  | Raised _ => 1
  end.

(** The three [if] statements of [__main], named so that each can be
    followed on its own once [public_ipv6] and [stored_posts] are known. *)
Definition create_if_absent (public_ipv6 : string) (stored_posts : list json) : M unit :=
  if (List.length stored_posts =? 0)%nat then
    bind (print (NoKnowledge public_ipv6)) (fun _ =>
    bind (create_dns_post "AAAA" HOSTNAME public_ipv6) (fun _ => ret tt))
  else ret tt.

Definition update_primary (public_ipv6 : string) (stored_posts : list json) : M unit :=
  if (0 <? List.length stored_posts)%nat then
    bind (lift (match stored_posts with
                | p :: _ => Returned p
                | [] => Raised IndexError
                end)) (fun stored_post =>
    bind (lift (subscript stored_post "content")) (fun content =>
    if negb (py_eq_str content public_ipv6) then
      bind (lift (subscript stored_post "content")) (fun old =>
      bind (print (NotSame old public_ipv6)) (fun _ =>
      bind (lift (subscript stored_post "id")) (fun id =>
      bind (update_dns_post id "AAAA" HOSTNAME public_ipv6) (fun _ =>
      ret tt))))
    else ret tt))
  else ret tt.

Definition remove_spares (stored_posts : list json) : M unit :=
  if (1 <? List.length stored_posts)%nat then
    bind (print SpareExists) (fun _ =>
    for_each (tl stored_posts) remove_post)
  else ret tt.

Definition after_fetch (public_ipv6 : string) (stored_posts : list json) : M Z :=
  bind (create_if_absent public_ipv6 stored_posts) (fun _ =>
  bind (update_primary public_ipv6 stored_posts) (fun _ =>
  bind (remove_spares stored_posts) (fun _ =>
  ret 0%Z))).

End Script.

Arguments mkRun {World A}.
Arguments final {World A}.
Arguments events {World A}.
Arguments result {World A}.

(** ** Predicates on runs *)

(** The filter as the specification words it: the records whose name
    equals the configured host name and whose type equals "AAAA". *)
Definition named_and_typed (post : json) : bool :=
  match subscript post "name", subscript post "type" with
  | Returned name, Returned type => py_eq_str name HOSTNAME && py_eq_str type "AAAA"
  | _, _ => false
  end.

Definition spec_filter (allposts : list json) : list json :=
  filter named_and_typed allposts.

(** A fetched item that is a record: a dict with the two fields the filter
    reads. *)
Definition has_name_and_type (post : json) : Prop :=
  exists name type,
    subscript post "name" = Returned name /\ subscript post "type" = Returned type.

(** The requests whose response the script reads with [.json()['result']]:
    those of [fetch_all_dns], [update_dns_post] and [delete_dns_post]. *)
Definition inspected (r : request) : bool :=
  match req_method r, req_url r with
  | GET, DnsRecords _ => true
  | PATCH, _ => true
  | DELETE, _ => true
  | _, _ => false
  end.

(** [response.json()['result']]. *)
Definition result_of (resp : Response) : outcome json :=
  match json_of resp with
  | Raised e => Raised e
  | Returned decoded => subscript decoded "result"
  end.

(** The exception an event ends the run with, if any: an inspected
    response from which ['result'] cannot be read. *)
Definition fault_of (ev : event) : option exn :=
  match ev with
  | Call r (Returned resp) =>
      if inspected r then
        match result_of resp with
        | Raised e => Some e
        | Returned _ => None
        end
      else None
  | _ => None
  end.

(** A run stops at its first fault: nothing follows the faulty event and
    the run ends with its exception. *)
Definition stops_at_fault {World A} (r : @run World A) : Prop :=
  forall before ev after e,
    events r = before ++ ev :: after ->
    fault_of ev = Some e ->
    after = [] /\ result r = Raised e.

(** An event that changes nothing at the provider. *)
Definition no_write (ev : event) : Prop :=
  is_call POST ev = false /\ is_call PATCH ev = false /\ is_call DELETE ev = false.

(** The only shape of PATCH the script sends for the address [ip]. *)
Definition patch_is_literal (ip : string) (ev : event) : Prop :=
  forall r ans,
    ev = Call r ans ->
    req_method r = PATCH ->
    exists id, r = mkRequest PATCH (DnsRecord CLOUDFLARE_ZONE_ID id) bearer
                             (Some (newdata "AAAA" HOSTNAME ip)).

(** A fetched item with the four fields the script reads. *)
Definition is_record (post : json) : Prop :=
  exists id type name content,
    subscript post "id" = Returned id /\
    subscript post "type" = Returned type /\
    subscript post "name" = Returned name /\
    subscript post "content" = Returned content.

(** A provider that answers every request, with a ['result'] member where
    the script reads one and with a list of records when asked for the
    zone's records.  Status codes are left free, and so is what the
    provider does with the request. *)
Definition answers_well {World} (send : request -> World -> World * outcome Response) : Prop :=
  forall r w,
    exists resp,
      snd (send r w) = Returned resp /\
      (inspected r = true -> exists v, result_of resp = Returned v) /\
      (req_method r = GET -> req_url r = DnsRecords CLOUDFLARE_ZONE_ID ->
       exists items, result_of resp = Returned (JArr items) /\ Forall is_record items).

Definition returns {World A} (r : @run World A) : Prop :=
  exists a, result r = Returned a.

(** The two reads every run starts with. *)
Definition address_request : request := mkRequest GET IpInfoIp None None.

Definition list_request : request :=
  mkRequest GET (DnsRecords CLOUDFLARE_ZONE_ID) bearer None.

(** What [__main] makes of the listing's answer: [.json()['result']], the
    iteration and the comprehension. *)
Definition stored_posts_in (resp : Response) : outcome (list json) :=
  match result_of resp with
  | Raised e => Raised e
  | Returned allposts =>
      match iterate allposts with
      | Raised e => Raised e
      | Returned posts => stored_posts_of posts
      end
  end.

(** Both reads of a run from [w] are answered, with the address [text ip]
    and a listing in which the comprehension finds [stored_posts]. *)
Definition fetches {World} (send : request -> World -> World * outcome Response)
    (w : World) (ip resp : Response) (stored_posts : list json) : Prop :=
  snd (send address_request w) = Returned ip /\
  snd (send list_request (fst (send address_request w))) = Returned resp /\
  stored_posts_in resp = Returned stored_posts.

(** The world a run is in once both reads are done. *)
Definition after_reads {World} (send : request -> World -> World * outcome Response)
    (w : World) : World :=
  fst (send list_request (fst (send address_request w))).

(** An item the comprehension can read: it has a name, and a type too when
    the name is the configured one (the [and] does not look further). *)
Definition readable (post : json) : Prop :=
  exists name,
    subscript post "name" = Returned name /\
    (py_eq_str name HOSTNAME = true -> exists type, subscript post "type" = Returned type).

(** The five requests the script can send when the address is [ip]. *)
Definition scripted (ip : string) (r : request) : Prop :=
  r = address_request \/
  r = list_request \/
  r = mkRequest POST (DnsRecords CLOUDFLARE_ZONE_ID) bearer
                (Some (newdata "AAAA" HOSTNAME ip)) \/
  (exists id, r = mkRequest PATCH (DnsRecord CLOUDFLARE_ZONE_ID id) bearer
                            (Some (newdata "AAAA" HOSTNAME ip))) \/
  (exists id, r = mkRequest DELETE (DnsRecord CLOUDFLARE_ZONE_ID id) bearer None).

(** The DELETE requests for the identifiers of [posts], in order. *)
Definition deletes_of (posts : list json) (rs : list request) : Prop :=
  Forall2 (fun post r =>
             exists id, subscript post "id" = Returned id /\
                        r = mkRequest DELETE (DnsRecord CLOUDFLARE_ZONE_ID id) bearer None)
          posts rs.

(** An event after which the run goes on: a printed line, or a request
    that returned, with a ['result'] member where the script reads one.
    The status code plays no part. *)
Definition answered (ev : event) : Prop :=
  match ev with
  | Print _ => True
  | Call _ (Raised _) => False
  | Call r (Returned resp) =>
      inspected r = true -> exists v, result_of resp = Returned v
  end.

(** A record after the first one, with the two fields the loop reads. *)
Definition removable (post : json) : Prop :=
  (exists id, subscript post "id" = Returned id) /\
  (exists content, subscript post "content" = Returned content).

(** The first record found has the fields the second [if] reads: its
    content, and its identifier when the content is not the address. *)
Definition syncable (ip : string) (post : json) : Prop :=
  exists content,
    subscript post "content" = Returned content /\
    (py_eq_str content ip = false -> exists id, subscript post "id" = Returned id).

(** The records found carry every field the run reads from them. *)
Definition handled (ip : string) (stored_posts : list json) : Prop :=
  match stored_posts with
  | [] => True
  | p :: rest => syncable ip p /\ Forall removable rest
  end.

(** An execution in which no exception escapes, told from what the run
    received: both reads are answered and the listing can be filtered, the
    records found carry the fields read, and every event of the run is
    [answered]. *)
Definition clean {World} (send : request -> World -> World * outcome Response)
    (w : World) : Prop :=
  exists ip resp stored_posts,
    fetches send w ip resp stored_posts /\
    handled (text ip) stored_posts /\
    Forall answered (events (__main send w)).

(** ** The provider and the address service

    What a pass leaves at the provider depends on the provider.  This one
    is the REST interface the script talks to, reduced to what the
    script uses: a zone is a list of records with provider-assigned
    identifiers; listing returns them in order, POST appends a record under a
    fresh identifier, PATCH replaces type, name and content of the record with
    the given identifier, DELETE removes it.  Every API answer is a JSON
    object with a ["result"] member, [null] when the request is refused.  The
    address service answers with the machine's address as plain text. *)

Record dns_record : Type := mkRecord {
  rec_id : string;
  rec_type : string;
  rec_name : string;
  rec_content : string
}.

Record zone : Type := mkZone {
  records : list dns_record;
  address : string
}.

Definition to_json (r : dns_record) : json :=
  JObj [("id", JStr (rec_id r)); ("type", JStr (rec_type r));
        ("name", JStr (rec_name r)); ("content", JStr (rec_content r))].

Definition answer (code : Z) (success : bool) (v : json) : outcome Response :=
  Returned (mkResponse code "" (Some (JObj [("result", v); ("success", JBool success)]))).

(** An identifier longer than every identifier in use. *)
Definition fresh_id (l : list dns_record) : string :=
  String "r" (String.concat "" (map rec_id l)).

Definition str_field (data : option json) (key : string) : option string :=
  match data with
  | Some (JObj fields) =>
      match lookup key fields with
      | Some (JStr s) => Some s
      | _ => None
      end
  | _ => None
  end.

Definition has_id (i : string) (r : dns_record) : bool := String.eqb (rec_id r) i.

Definition cloudflare (r : request) (z : zone) : zone * outcome Response :=
  let data := req_data r in
  match req_method r, req_url r with
  | GET, IpInfoIp => (z, Returned (mkResponse 200 (address z) None))
  | GET, DnsRecords _ => (z, answer 200 true (JArr (map to_json (records z))))
  | POST, DnsRecords _ =>
      match str_field data "type", str_field data "name", str_field data "content" with
      | Some t, Some n, Some c =>
          let new := mkRecord (fresh_id (records z)) t n c in
          (mkZone (records z ++ [new]) (address z), answer 200 true (to_json new))
      | _, _, _ => (z, answer 400 false JNull)
      end
  | PATCH, DnsRecord _ (JStr i) =>
      match str_field data "type", str_field data "name", str_field data "content" with
      | Some t, Some n, Some c =>
          if existsb (has_id i) (records z) then
            let new := mkRecord i t n c in
            (mkZone (map (fun x => if has_id i x then new else x) (records z)) (address z),
             answer 200 true (to_json new))
          else (z, answer 404 false JNull)
      | _, _, _ => (z, answer 400 false JNull)
      end
  | DELETE, DnsRecord _ (JStr i) =>
      if existsb (has_id i) (records z) then
        (mkZone (filter (fun x => negb (has_id i x)) (records z)) (address z),
         answer 200 true (JObj [("id", JStr i)]))
      else (z, answer 404 false JNull)
  | _, _ => (z, answer 404 false JNull)
  end.

(** One reconciliation pass against the provider. *)
Definition pass (z : zone) : @run zone Z := __main cloudflare z.

(** The records the script is about. *)
Definition matching (r : dns_record) : bool :=
  String.eqb (rec_name r) HOSTNAME && String.eqb (rec_type r) "AAAA".

Definition create_request (content : string) : request :=
  mkRequest POST (DnsRecords CLOUDFLARE_ZONE_ID) bearer
            (Some (newdata "AAAA" HOSTNAME content)).

Definition update_request (id content : string) : request :=
  mkRequest PATCH (DnsRecord CLOUDFLARE_ZONE_ID (JStr id)) bearer
            (Some (newdata "AAAA" HOSTNAME content)).

Definition delete_request (id : string) : request :=
  mkRequest DELETE (DnsRecord CLOUDFLARE_ZONE_ID (JStr id)) bearer None.

(** The zone without the records identified by [i]. *)
Definition without (i : string) (l : list dns_record) : list dns_record :=
  filter (fun x => negb (has_id i x)) l.

(** The zone after PATCH of [i] with the script's data. *)
Definition patched (i content : string) (l : list dns_record) : list dns_record :=
  map (fun x => if has_id i x then mkRecord i "AAAA" HOSTNAME content else x) l.

(** The zone after the deletions of the loop over [rest]. *)
Definition remove_all (rest l : list dns_record) : list dns_record :=
  fold_left (fun acc p => without (rec_id p) acc) rest l.

Definition ids (l : list dns_record) : list string := map rec_id l.

(** A gateway in front of both services that answers every request with
    an error page. *)
Definition bad_gateway (r : request) (w : unit) : unit * outcome Response :=
  (w, Returned (mkResponse 502 "<html>502 Bad Gateway</html>" None)).

(** The provider with a credential that may only read: every write is
    refused with an error envelope. *)
Definition read_only (r : request) (z : zone) : zone * outcome Response :=
  match req_method r with
  | GET => cloudflare r z
  | _ => (z, answer 403 false JNull)
  end.

(** The provider with a broken update endpoint, whose answer has no
    ["result"] member. *)
Definition broken_update (r : request) (z : zone) : zone * outcome Response :=
  match req_method r with
  | PATCH => (z, Returned (mkResponse 500 "" (Some (JObj [("success", JBool false)]))))
  | _ => cloudflare r z
  end.

(** No network: every request raises. *)
Definition offline (r : request) (w : unit) : unit * outcome Response :=
  (w, Raised RequestException).

(** An address service that reports [ip] and a provider that answers
    every request with the envelope of [listing]. *)
Definition canned (ip : string) (listing : json) (r : request) (w : unit)
  : unit * outcome Response :=
  match req_url r with
  | IpInfoIp => (w, Returned (mkResponse 200 ip None))
  | _ => (w, answer 200 true listing)
  end.

(** The scenarios of the specification, with the script's own host name. *)
Definition scenario_a : zone :=
  mkZone [mkRecord "r0" "A" HOSTNAME "192.0.2.1"] "2001:db8::1".
Definition scenario_b : zone :=
  mkZone [mkRecord "r1" "AAAA" HOSTNAME "2001:db8::1"] "2001:db8::2".
Definition scenario_c : zone :=
  mkZone [mkRecord "r1" "AAAA" HOSTNAME "2001:db8::9";
          mkRecord "r2" "AAAA" HOSTNAME "2001:db8::9"] "2001:db8::9".
(** Two stale records for the host name. *)
Definition scenario_d : zone :=
  mkZone [mkRecord "r1" "AAAA" HOSTNAME "2001:db8::1";
          mkRecord "r2" "AAAA" HOSTNAME "2001:db8::1"] "2001:db8::2".

(** ** Traces of the script under any provider *)

Section Traces.

Context {World : Type}.
Variable send : request -> World -> World * outcome Response.

Lemma calls_app (m : method) (t u : list event) :
  calls m (t ++ u) = calls m t ++ calls m u.
Proof.
  unfold calls. now rewrite filter_app, flat_map_app.
Qed.

(** Running [m] and then [k]: either [m] raised and the run is [m]'s, or
    it returned and the run of [k] follows. *)
Lemma bind_cases {A B} (m : @M World A) (k : A -> @M World B) (w : World) :
  (exists e, result (m w) = Raised e /\
             bind m k w = mkRun (final (m w)) (events (m w)) (Raised e)) \/
  (exists a, result (m w) = Returned a /\
             bind m k w = mkRun (final (k a (final (m w))))
                                (events (m w) ++ events (k a (final (m w))))
                                (result (k a (final (m w))))).
Proof.
  unfold bind. destruct (result (m w)) as [a | e]; eauto.
Qed.

(** A property of every event of a run passes through [bind]. *)
Lemma bind_Forall {A B} (P : event -> Prop) (m : @M World A) (k : A -> @M World B) (w : World) :
  Forall P (events (m w)) ->
  (forall a, result (m w) = Returned a -> Forall P (events (k a (final (m w))))) ->
  Forall P (events (bind m k w)).
Proof.
  intros Hm Hk. destruct (bind_cases m k w) as [(e & _ & ->) | (a & Ha & ->)]; simpl.
  - exact Hm.
  - apply Forall_app. split; auto.
Qed.

Lemma http_events (r : request) (w : World) :
  events (http send r w) = [Call r (snd (send r w))].
Proof.
  unfold http. now destruct (send r w).
Qed.

Lemma bind_returned {A B} (m : @M World A) (k : A -> @M World B)
      {w w1 : World} {t : list event} {a : A} :
  m w = mkRun w1 t (Returned a) ->
  bind m k w = mkRun (final (k a w1)) (t ++ events (k a w1)) (result (k a w1)).
Proof.
  intro E. unfold bind. now rewrite E.
Qed.

Lemma bind_then {A B} (m : @M World A) (k : A -> @M World B) {w : World} {a : A} :
  result (m w) = Returned a ->
  bind m k w = mkRun (final (k a (final (m w))))
                     (events (m w) ++ events (k a (final (m w))))
                     (result (k a (final (m w)))).
Proof.
  intro E. unfold bind. now rewrite E.
Qed.

Lemma http_result (r : request) (w : World) :
  result (http send r w) = snd (send r w).
Proof.
  unfold http. now destruct (send r w).
Qed.

Lemma calls_nil (m : method) (t : list event) :
  Forall (fun ev => is_call m ev = false) t -> calls m t = [].
Proof.
  unfold calls. induction 1 as [| ev t Hev _ IH]; simpl; [reflexivity |].
  now rewrite Hev.
Qed.

Lemma main_unfold :
  __main send =
  bind (http send (mkRequest GET IpInfoIp None None)) (fun ip =>
  bind (fetch_all_dns send) (fun allposts =>
  bind (lift (iterate allposts)) (fun posts =>
  bind (lift (stored_posts_of posts)) (fun stored_posts =>
  after_fetch send (text ip) stored_posts)))).
Proof. reflexivity. Qed.

End Traces.

(** ** A run stops at its first fault *)

Section Faults.

Context {World : Type}.
Variable send : request -> World -> World * outcome Response.

Lemma bind_stops {A B} (m : @M World A) (k : A -> @M World B) (w : World) :
  stops_at_fault (m w) ->
  (forall a, result (m w) = Returned a -> stops_at_fault (k a (final (m w)))) ->
  stops_at_fault (bind m k w).
Proof.
  intros Hm Hk before ev after e.
  destruct (bind_cases m k w) as [(e' & Hr & ->) | (a & Hr & ->)];
    cbn [events result]; intros E F.
  - destruct (Hm _ _ _ _ E F) as (-> & Hre). split; congruence.
  - apply app_eq_app in E as (l & [(E1 & E2) | (E1 & E2)]).
    + destruct l as [| x l].
      * rewrite app_nil_r in E1. cbn in E2. subst before.
        apply (Hk a Hr [] ev after e); [now rewrite <- E2 | exact F].
      * cbn in E2. injection E2 as <- ->.
        destruct (Hm _ _ _ _ E1 F) as (_ & Hre). congruence.
    + apply (Hk a Hr l ev after e); [exact E2 | exact F].
Qed.

Lemma quiet_stops {A} (r : @run World A) :
  Forall (fun ev => fault_of ev = None) (events r) -> stops_at_fault r.
Proof.
  intros H before ev after e E F. rewrite E in H.
  apply Forall_app in H as (_ & H). inversion H; congruence.
Qed.

(** A request followed by [.json()['result']], as the three inspecting
    wrappers do. *)
Lemma inspected_request_stops (r : request) (w : World) :
  inspected r = true ->
  stops_at_fault
    (bind (http send r) (fun resp =>
     bind (lift (json_of resp)) (fun decoded =>
     lift (subscript decoded "result"))) w).
Proof.
  intros Hr before ev after e. unfold bind, http, lift.
  destruct (send r w) as [w' [resp | e']]; cbn [result events final].
  - destruct (json_of resp) as [decoded | e''] eqn:Ej; cbn [result events final app];
      intros E F;
      (destruct before as [| x before];
       [| destruct before; discriminate E]);
      cbn in E; injection E as <- <-;
      cbn in F; rewrite Hr in F; unfold result_of in F; rewrite Ej in F.
    + split; [reflexivity |].
      destruct (subscript decoded "result"); congruence.
    + split; [reflexivity | congruence].
  - intros E F.
    destruct before as [| x before]; [| destruct before; discriminate E].
    cbn in E. injection E as <- <-. discriminate F.
Qed.

Lemma uninspected_request_quiet (r : request) (w : World) :
  inspected r = false ->
  Forall (fun ev => fault_of ev = None) (events (http send r w)).
Proof.
  intro Hr. rewrite http_events. constructor; [| constructor].
  cbn. destruct (snd (send r w)); [now rewrite Hr | reflexivity].
Qed.

(** Follows a run statement by statement for [stops_at_fault]. *)
Ltac stops :=
  repeat first
    [ apply inspected_request_stops; reflexivity
    | apply bind_stops; [ | intros ? _ ]
    | apply quiet_stops;
      first [ apply uninspected_request_quiet; reflexivity
            | solve [ cbn [events lift ret print]; repeat constructor ] ]
    | match goal with
      | |- stops_at_fault ((if ?b then _ else _) _) => destruct b
      end ].

Lemma remove_posts_stop (l : list json) (w : World) :
  stops_at_fault (for_each l (remove_post send) w).
Proof.
  revert w. induction l as [| post rest IH]; intro w; cbn [for_each].
  - stops.
  - apply bind_stops; [| intros ? _; apply IH].
    unfold remove_post, delete_dns_post. stops.
Qed.

Lemma main_stops (w : World) : stops_at_fault (__main send w).
Proof.
  rewrite main_unfold.
  unfold fetch_all_dns, after_fetch, create_if_absent, update_primary,
    remove_spares, create_dns_post, update_dns_post.
  stops. apply remove_posts_stop.
Qed.

End Faults.

(** ** The shape of the events *)

Section Shape.

Context {World : Type}.
Variable send : request -> World -> World * outcome Response.

(** Walks a run statement by statement, leaving one goal per event. *)
Ltac walk_events :=
  repeat first
    [ apply Forall_nil
    | apply bind_Forall; [ | intros ? _ ]
    | rewrite http_events; apply Forall_cons; [ | apply Forall_nil ]
    | apply Forall_cons; [ | apply Forall_nil ]
    | progress unfold create_dns_post, update_dns_post, delete_dns_post,
                      fetch_all_dns, remove_post, after_fetch, create_if_absent,
                      update_primary, remove_spares
    | match goal with
      | |- Forall _ (events ((if ?b then _ else _) _)) => destruct b
      end ].

Lemma in_calls (m : method) (r : request) (t : list event) :
  In r (calls m t) -> exists ans, In (Call r ans) t /\ is_call m (Call r ans) = true.
Proof.
  unfold calls. intro H. apply in_flat_map in H as (ev & Hev & Hr).
  apply filter_In in Hev as (Hin & Hm).
  destruct ev as [r' ans | l]; [| contradiction].
  destruct Hr as [<- | []]. eauto.
Qed.

Lemma bind_lift_events {A B} (o : outcome A) (k : A -> @M World B) (w : World) :
  events (bind (lift o) k w) =
  match o with
  | Returned a => events (k a w)
  | Raised _ => []
  end.
Proof.
  destruct o; reflexivity.
Qed.

Lemma fetch_reads (w : World) : Forall no_write (events (fetch_all_dns send w)).
Proof.
  walk_events. repeat split.
Qed.

(** The events of [__main]: reads only, then [after_fetch] on the address
    the service reported, unless the run died before. *)
Lemma main_events (w : World) :
  Forall no_write (events (__main send w)) \/
  exists pre ip stored_posts w',
    snd (send (mkRequest GET IpInfoIp None None) w) = Returned ip /\
    events (__main send w) = pre ++ events (after_fetch send (text ip) stored_posts w') /\
    Forall no_write pre.
Proof.
  rewrite main_unfold.
  assert (H1 : Forall no_write (events (http send (mkRequest GET IpInfoIp None None) w)))
    by (rewrite http_events; repeat constructor).
  match goal with |- context [bind ?m ?k w] =>
    destruct (bind_cases m k w) as [(e & _ & ->) | (ip & Hip & ->)] end;
    cbn [events]; [now left |].
  rewrite http_result in Hip.
  set (w1 := final (http send _ w)) in *.
  pose proof (fetch_reads w1) as H2.
  match goal with |- context [bind ?m ?k w1] =>
    destruct (bind_cases m k w1) as [(e & _ & ->) | (allposts & _ & ->)] end;
    cbn [events]; [left; now apply Forall_app |].
  set (w2 := final (fetch_all_dns send w1)) in *.
  rewrite bind_lift_events.
  destruct (iterate allposts) as [posts | e];
    [| left; rewrite !app_nil_r; now apply Forall_app].
  rewrite bind_lift_events.
  destruct (stored_posts_of posts) as [stored_posts | e];
    [| left; rewrite !app_nil_r; now apply Forall_app].
  right. exists (events (http send (mkRequest GET IpInfoIp None None) w)
                  ++ events (fetch_all_dns send w1)), ip, stored_posts, w2.
  repeat split; [exact Hip | now rewrite app_assoc | now apply Forall_app].
Qed.

Lemma remove_posts_deletes (P : event -> Prop) (l : list json) (w : World) :
  (forall l', P (Print l')) ->
  (forall id ans,
      P (Call (mkRequest DELETE (DnsRecord CLOUDFLARE_ZONE_ID id) bearer None) ans)) ->
  Forall P (events (for_each l (remove_post send) w)).
Proof.
  intros Hprint Hdelete. revert w.
  induction l as [| post rest IH]; intro w; cbn [for_each].
  - apply Forall_nil.
  - walk_events; auto.
Qed.

Lemma after_fetch_none_no_update (ip : string) (w : World) :
  Forall (fun ev => is_call PATCH ev = false) (events (after_fetch send ip [] w)).
Proof.
  walk_events; reflexivity.
Qed.

Lemma after_fetch_some_no_create (ip : string) (p : json) (rest : list json) (w : World) :
  Forall (fun ev => is_call POST ev = false)
         (events (after_fetch send ip (p :: rest) w)).
Proof.
  walk_events; try reflexivity.
  apply remove_posts_deletes; reflexivity.
Qed.

Lemma after_fetch_patches (ip : string) (stored_posts : list json) (w : World) :
  Forall (patch_is_literal ip) (events (after_fetch send ip stored_posts w)).
Proof.
  walk_events;
    try (intros r ans E Hm; first [discriminate E | injection E as <- _; discriminate Hm]).
  - intros r ans E _. injection E as <- _. eauto.
  - apply remove_posts_deletes.
    + intros l' r ans E. discriminate E.
    + intros id ans r ans' E Hm. injection E as <- _. discriminate Hm.
Qed.

End Shape.

(** ** Runs that complete *)

Section Completion.

Context {World : Type}.
Variable send : request -> World -> World * outcome Response.
Hypothesis Hsend : answers_well send.

Lemma bind_returns {A B} (m : @M World A) (k : A -> @M World B) (w : World) :
  returns (m w) -> (forall a, returns (k a (final (m w)))) -> returns (bind m k w).
Proof.
  intros (a & Ha) Hk. rewrite (bind_then _ _ Ha). apply Hk.
Qed.

Lemma bind_lift_returns {A B} (o : outcome A) (a : A) (k : A -> @M World B) (w : World) :
  o = Returned a -> returns (k a w) -> returns (bind (lift o) k w).
Proof.
  intros -> Hk. exact Hk.
Qed.

Lemma http_returns (r : request) (w : World) : returns (http send r w).
Proof.
  destruct (Hsend r w) as (resp & E & _). exists resp. now rewrite http_result.
Qed.

Lemma inspected_request_result (r : request) (w : World) :
  result (bind (http send r) (fun resp =>
          bind (lift (json_of resp)) (fun decoded =>
          lift (subscript decoded "result"))) w) =
  match snd (send r w) with
  | Returned resp => result_of resp
  | Raised e => Raised e
  end.
Proof.
  unfold bind, http, lift, result_of.
  destruct (send r w) as [w' [resp | e]]; cbn; [| reflexivity].
  destruct (json_of resp); reflexivity.
Qed.

Lemma inspected_request_returns (r : request) (w : World) :
  inspected r = true ->
  returns (bind (http send r) (fun resp =>
           bind (lift (json_of resp)) (fun decoded =>
           lift (subscript decoded "result"))) w).
Proof.
  intro Hr. destruct (Hsend r w) as (resp & E & Hv & _).
  destruct (Hv Hr) as (v & Ev). exists v.
  now rewrite inspected_request_result, E.
Qed.

Lemma remove_posts_return (l : list json) (w : World) :
  Forall is_record l -> returns (for_each l (remove_post send) w).
Proof.
  intro H. revert w. induction H as [| post rest Hp _ IH]; intro w; cbn [for_each].
  - now exists tt.
  - destruct Hp as (id & type & name & content & Eid & _ & _ & Ec).
    apply bind_returns; [| intros _; apply IH].
    unfold remove_post.
    apply (bind_lift_returns _ _ _ _ Eid).
    apply (bind_lift_returns _ _ _ _ Ec).
    apply bind_returns; [now exists tt | intros _].
    apply (bind_lift_returns _ _ _ _ Eid).
    apply bind_returns; [| intros _; now exists tt].
    apply inspected_request_returns. reflexivity.
Qed.

Lemma after_fetch_returns (ip : string) (stored_posts : list json) (w : World) :
  Forall is_record stored_posts -> returns (after_fetch send ip stored_posts w).
Proof.
  intro H. unfold after_fetch.
  apply bind_returns; [| intros _; apply bind_returns; [| intros _; apply bind_returns;
                                                            [| intros _; now exists 0%Z]]].
  - unfold create_if_absent. destruct (List.length stored_posts =? 0)%nat; [| now exists tt].
    apply bind_returns; [now exists tt | intros _].
    apply bind_returns; [| intros _; now exists tt].
    unfold create_dns_post.
    apply bind_returns; [apply http_returns | intro resp; now exists resp].
  - unfold update_primary. destruct H as [| p rest Hp _]; [now exists tt |].
    cbn [List.length Nat.ltb Nat.leb].
    destruct Hp as (id & type & name & content & Eid & _ & _ & Ec).
    apply (bind_lift_returns _ p _ _ eq_refl).
    apply (bind_lift_returns _ _ _ _ Ec).
    destruct (negb (py_eq_str content ip)); [| now exists tt].
    apply (bind_lift_returns _ _ _ _ Ec).
    apply bind_returns; [now exists tt | intros _].
    apply (bind_lift_returns _ _ _ _ Eid).
    apply bind_returns; [| intros _; now exists tt].
    apply inspected_request_returns. reflexivity.
  - unfold remove_spares. destruct (1 <? List.length stored_posts)%nat; [| now exists tt].
    apply bind_returns; [now exists tt | intros _].
    apply remove_posts_return.
    destruct H; [constructor | assumption].
Qed.

Lemma stored_posts_are_records (items : list json) :
  Forall is_record items ->
  exists stored_posts,
    stored_posts_of items = Returned stored_posts /\ Forall is_record stored_posts.
Proof.
  induction 1 as [| post rest Hp _ (tl & Etl & Htl)]; cbn [stored_posts_of].
  - exists []. auto.
  - pose proof Hp as (id & type & name & content & _ & Et & En & _).
    rewrite En, Et, Etl.
    destruct (py_eq_str name HOSTNAME); cbn.
    + destruct (py_eq_str type "AAAA"); eauto.
    + eauto.
Qed.

Lemma main_returns (w : World) : returns (__main send w).
Proof.
  rewrite main_unfold.
  apply bind_returns; [apply http_returns | intro ip].
  set (w1 := final _).
  destruct (Hsend (mkRequest GET (DnsRecords CLOUDFLARE_ZONE_ID) bearer None) w1)
    as (resp & E & _ & Hl).
  destruct (Hl eq_refl eq_refl) as (items & Er & Hitems).
  destruct (stored_posts_are_records items Hitems) as (sp & Esp & Hsp).
  assert (Ef : result (fetch_all_dns send w1) = Returned (JArr items)).
  { unfold fetch_all_dns. now rewrite inspected_request_result, E. }
  rewrite (bind_then _ _ Ef). cbn [final events result].
  apply (bind_lift_returns _ items _ _ eq_refl).
  apply (bind_lift_returns _ _ _ _ Esp).
  now apply after_fetch_returns.
Qed.

End Completion.

Example run_scenario_a :
  writes (events (pass scenario_a)) = [create_request "2001:db8::1"] /\
  records (final (pass scenario_a)) =
    [mkRecord "r0" "A" HOSTNAME "192.0.2.1"; mkRecord "rr0" "AAAA" HOSTNAME "2001:db8::1"].
Proof. split; reflexivity. Qed.

Example run_scenario_b :
  writes (events (pass scenario_b)) = [update_request "r1" "2001:db8::2"] /\
  records (final (pass scenario_b)) = [mkRecord "r1" "AAAA" HOSTNAME "2001:db8::2"].
Proof. split; reflexivity. Qed.

Example run_scenario_c :
  writes (events (pass scenario_c)) = [delete_request "r2"] /\
  records (final (pass scenario_c)) = [mkRecord "r1" "AAAA" HOSTNAME "2001:db8::9"].
Proof. split; reflexivity. Qed.

(** ** The statements of a pass at the provider *)

Lemma stored_posts_of_records (l : list dns_record) :
  stored_posts_of (map to_json l) = Returned (map to_json (filter matching l)).
Proof.
  induction l as [| r l IH]; [reflexivity |].
  cbn [map stored_posts_of]. rewrite IH. unfold matching.
  cbn. destruct (String.eqb (rec_name r) HOSTNAME); [| reflexivity].
  destruct (String.eqb (rec_type r) "AAAA"); reflexivity.
Qed.

Lemma without_absent (i : string) (l : list dns_record) :
  existsb (has_id i) l = false -> without i l = l.
Proof.
  unfold without. induction l as [| r l IH]; simpl; [reflexivity |].
  intro H. apply orb_false_iff in H as [Hr Hl].
  rewrite Hr. simpl. now rewrite IH.
Qed.

Lemma delete_on_provider (i : string) (z : zone) :
  exists code ok v,
    cloudflare (delete_request i) z =
    (mkZone (without i (records z)) (address z), answer code ok v).
Proof.
  unfold cloudflare. cbn.
  destruct (existsb (has_id i) (records z)) eqn:E; cbn.
  - now eexists _, _, _.
  - rewrite without_absent by exact E. destruct z. now eexists _, _, _.
Qed.

Lemma patch_on_provider (i content : string) (z : zone) :
  existsb (has_id i) (records z) = true ->
  cloudflare (update_request i content) z =
  (mkZone (patched i content (records z)) (address z),
   answer 200 true (to_json (mkRecord i "AAAA" HOSTNAME content))).
Proof.
  intro H. unfold cloudflare. cbn. now rewrite H.
Qed.

Lemma remove_post_on_provider (p : dns_record) (z : zone) :
  exists code ok v,
    remove_post cloudflare (to_json p) z =
    mkRun (mkZone (without (rec_id p) (records z)) (address z))
          [Print (Removing (JStr (rec_id p)) (JStr (rec_content p)));
           Call (delete_request (rec_id p)) (answer code ok v)]
          (Returned tt).
Proof.
  destruct (delete_on_provider (rec_id p) z) as (code & ok & v & E).
  exists code, ok, v.
  unfold remove_post, delete_dns_post, bind, http, lift, ret, print.
  cbn -[cloudflare].
  change (mkRequest DELETE (DnsRecord CLOUDFLARE_ZONE_ID (JStr (rec_id p))) bearer None)
    with (delete_request (rec_id p)).
  rewrite E. reflexivity.
Qed.

Lemma remove_posts_on_provider (rest : list dns_record) (z : zone) :
  let r := for_each (map to_json rest) (remove_post cloudflare) z in
  final r = mkZone (remove_all rest (records z)) (address z) /\
  result r = Returned tt /\
  creates (events r) = [] /\
  updates (events r) = [] /\
  deletes (events r) = map (fun p => delete_request (rec_id p)) rest.
Proof.
  revert z. induction rest as [| p rest IH]; intro z.
  - destruct z. cbn. auto.
  - destruct (remove_post_on_provider p z) as (code & ok & v & E).
    specialize (IH (mkZone (without (rec_id p) (records z)) (address z))).
    cbn zeta in IH. cbn [records address] in IH.
    destruct IH as (Hf & Hr & Hc & Hu & Hd).
    cbn [map for_each]. rewrite (bind_returned _ _ E).
    cbn [final events result].
    unfold creates, updates, deletes in *.
    rewrite !calls_app, Hc, Hu, Hd. auto.
Qed.

Lemma primary_present (p : dns_record) (rest l : list dns_record) :
  filter matching l = p :: rest -> existsb (has_id (rec_id p)) l = true.
Proof.
  intro E. apply existsb_exists. exists p. split.
  - apply (proj1 (filter_In matching p l)). rewrite E. now left.
  - unfold has_id. apply String.eqb_refl.
Qed.

Lemma update_primary_on_provider (z : zone) (p : dns_record) (rest : list json) :
  existsb (has_id (rec_id p)) (records z) = true ->
  exists t,
    update_primary cloudflare (address z) (to_json p :: rest) z =
    mkRun (if String.eqb (rec_content p) (address z) then z
           else mkZone (patched (rec_id p) (address z) (records z)) (address z))
          t (Returned tt) /\
    creates t = [] /\
    deletes t = [] /\
    updates t = (if String.eqb (rec_content p) (address z) then []
                 else [update_request (rec_id p) (address z)]).
Proof.
  intro Hp. unfold update_primary.
  cbn -[cloudflare update_dns_post].
  destruct (String.eqb (rec_content p) (address z)); cbn -[cloudflare update_dns_post].
  - exists []. auto.
  - unfold update_dns_post, bind, http, lift, ret, print. cbn -[cloudflare].
    change (mkRequest PATCH (DnsRecord CLOUDFLARE_ZONE_ID (JStr (rec_id p))) bearer
                      (Some (newdata "AAAA" HOSTNAME (address z))))
      with (update_request (rec_id p) (address z)).
    rewrite (patch_on_provider _ _ _ Hp). cbn.
    eexists. split; [reflexivity |]. cbn. auto.
Qed.

Lemma remove_spares_on_provider (z : zone) (p : dns_record) (rest : list dns_record) :
  let r := remove_spares cloudflare (map to_json (p :: rest)) z in
  final r = mkZone (remove_all rest (records z)) (address z) /\
  result r = Returned tt /\
  creates (events r) = [] /\
  updates (events r) = [] /\
  deletes (events r) = map (fun q => delete_request (rec_id q)) rest.
Proof.
  unfold remove_spares. destruct rest as [| q rest].
  - destruct z. cbn. auto.
  - destruct (remove_posts_on_provider (q :: rest) z) as (Hf & Hr & Hc & Hu & Hd).
    cbn [map List.length Nat.ltb Nat.leb tl] in *.
    erewrite bind_returned by reflexivity.
    cbn [final events result]. unfold creates, updates, deletes in *.
    rewrite !calls_app, Hc, Hu, Hd. auto.
Qed.

(** The requests and the zone after [after_fetch] when no record matched. *)
Lemma after_fetch_none (z : zone) :
  let r := after_fetch cloudflare (address z) [] z in
  final r = mkZone (records z ++ [mkRecord (fresh_id (records z)) "AAAA" HOSTNAME (address z)])
                   (address z) /\
  result r = Returned 0%Z /\
  creates (events r) = [create_request (address z)] /\
  updates (events r) = [] /\
  deletes (events r) = [].
Proof.
  cbn. auto.
Qed.

(** The same when [p] is the first matching record and [rest] the others. *)
Lemma after_fetch_some (z : zone) (p : dns_record) (rest : list dns_record) :
  existsb (has_id (rec_id p)) (records z) = true ->
  let r := after_fetch cloudflare (address z) (map to_json (p :: rest)) z in
  let same := String.eqb (rec_content p) (address z) in
  final r = mkZone (remove_all rest
                      (if same then records z
                       else patched (rec_id p) (address z) (records z)))
                   (address z) /\
  result r = Returned 0%Z /\
  creates (events r) = [] /\
  updates (events r) = (if same then [] else [update_request (rec_id p) (address z)]) /\
  deletes (events r) = map (fun q => delete_request (rec_id q)) rest.
Proof.
  intros Hp. cbv zeta. unfold after_fetch.
  destruct (update_primary_on_provider z p (map to_json rest) Hp)
    as (t & E & Hc & Hd & Hu).
  set (z1 := if String.eqb (rec_content p) (address z) then z
             else mkZone (patched (rec_id p) (address z) (records z)) (address z)) in *.
  destruct (remove_spares_on_provider z1 p rest) as (Hf' & Hr' & Hc' & Hu' & Hd').
  cbv zeta in *.
  assert (Ha : address z1 = address z)
    by (unfold z1; now destruct (String.eqb (rec_content p) (address z))).
  assert (Hrec : records z1 = if String.eqb (rec_content p) (address z) then records z
                              else patched (rec_id p) (address z) (records z))
    by (unfold z1; now destruct (String.eqb (rec_content p) (address z))).
  rewrite Ha, Hrec in Hf'.
  assert (E0 : create_if_absent cloudflare (address z) (map to_json (p :: rest)) z
               = mkRun z [] (Returned tt)) by reflexivity.
  rewrite (bind_returned _ _ E0).
  cbn [map] in *. rewrite (bind_returned _ _ E).
  cbn [final events result app].
  rewrite (bind_then _ _ Hr').
  cbn [final events result ret]. unfold creates, updates, deletes in *.
  rewrite !calls_app, Hc, Hu, Hd, Hc', Hu', Hd', Hf', app_nil_r. cbn. rewrite !app_nil_r. auto.
Qed.

(** A pass is the two reads followed by [after_fetch] on the records that
    match, as the provider lists them. *)
Lemma pass_after_fetch (z : zone) :
  let r := after_fetch cloudflare (address z)
                       (map to_json (filter matching (records z))) z in
  final (pass z) = final r /\
  result (pass z) = result r /\
  creates (events (pass z)) = creates (events r) /\
  updates (events (pass z)) = updates (events r) /\
  deletes (events (pass z)) = deletes (events r).
Proof.
  unfold pass. rewrite main_unfold. cbn zeta.
  unfold bind at 1. rewrite http_result. cbn.
  rewrite stored_posts_of_records.
  erewrite bind_returned by reflexivity.
  cbn [final events result app]. auto.
Qed.

(** ** What a pass leaves at the provider *)

Lemma ids_filter_NoDup (f : dns_record -> bool) (l : list dns_record) :
  NoDup (ids l) -> NoDup (ids (filter f l)).
Proof.
  unfold ids. induction l as [| r l IH]; simpl; intro H; [constructor |].
  inversion H as [| ? ? Hr Hl]; subst.
  destruct (f r); simpl; auto.
  constructor; auto.
  intro Hin. apply Hr.
  apply in_map_iff in Hin as (x & Hx & Hin). apply in_map_iff.
  exists x. split; [exact Hx |]. now apply filter_In in Hin.
Qed.

(** All the deletions of the loop at once. *)
Lemma remove_all_filter (rest l : list dns_record) :
  remove_all rest l =
  filter (fun x => negb (existsb (fun q => has_id (rec_id q) x) rest)) l.
Proof.
  unfold remove_all. revert l.
  induction rest as [| q rest IH]; intro l; simpl.
  - induction l as [| x l IHl]; simpl; congruence.
  - rewrite IH. unfold without.
    induction l as [| x l IHl]; simpl; [reflexivity |].
    destruct (has_id (rec_id q) x); simpl; [exact IHl |].
    destruct (existsb (fun q0 => has_id (rec_id q0) x) rest); simpl; congruence.
Qed.

Lemma filter_comm {A} (f g : A -> bool) (l : list A) :
  filter f (filter g l) = filter g (filter f l).
Proof.
  induction l as [| x l IH]; simpl; [reflexivity |].
  destruct (f x) eqn:Ef, (g x) eqn:Eg; simpl; rewrite ?Ef, ?Eg, IH; reflexivity.
Qed.

(** With distinct identifiers the loop leaves the first record alone and
    removes all the others. *)
Lemma remove_all_keeps_first (p : dns_record) (rest : list dns_record) :
  NoDup (ids (p :: rest)) -> remove_all rest (p :: rest) = [p].
Proof.
  intro H. rewrite remove_all_filter. inversion H as [| ? ? Hp Hrest]; subst.
  simpl.
  replace (existsb (fun q => has_id (rec_id q) p) rest) with false.
  - simpl. f_equal.
    clear Hp Hrest H. 
    assert (G : forall l, (forall x, In x l -> In x rest) ->
                filter (fun x => negb (existsb (fun q => has_id (rec_id q) x) rest)) l = []).
    { induction l as [| x l IHl]; intro Hl; simpl; [reflexivity |].
      replace (existsb (fun q => has_id (rec_id q) x) rest) with true.
      - simpl. apply IHl. intros y Hy. apply Hl. now right.
      - symmetry. apply existsb_exists. exists x. split.
        + apply Hl. now left.
        + unfold has_id. apply String.eqb_refl. }
    apply G. auto.
  - symmetry. apply not_true_is_false. intro E.
    apply existsb_exists in E as (q & Hq & E). apply Hp.
    unfold has_id in E. apply String.eqb_eq in E. rewrite E.
    unfold ids. now apply in_map.
Qed.

Lemma patched_absent (i c : string) (l : list dns_record) :
  ~ In i (ids l) -> patched i c l = l.
Proof.
  unfold patched, ids. induction l as [| x l IH]; simpl; intro H; [reflexivity |].
  unfold has_id at 1. destruct (String.eqb_spec (rec_id x) i) as [E | E].
  - exfalso. apply H. now left.
  - f_equal. apply IH. intro Hin. apply H. now right.
Qed.

(** With distinct identifiers PATCH changes the first matching record only,
    and that record still matches. *)
Lemma matching_patched (p : dns_record) (rest l : list dns_record) (c : string) :
  NoDup (ids l) ->
  filter matching l = p :: rest ->
  filter matching (patched (rec_id p) c l) = mkRecord (rec_id p) "AAAA" HOSTNAME c :: rest.
Proof.
  induction l as [| x l IH]; intros Hnd E; [discriminate |].
  inversion Hnd as [| ? ? Hx Hl]; subst.
  change (patched (rec_id p) c (x :: l))
    with ((if has_id (rec_id p) x then mkRecord (rec_id p) "AAAA" HOSTNAME c else x)
            :: patched (rec_id p) c l).
  cbn [filter] in E. destruct (matching x) eqn:Ex.
  - injection E as -> E.
    replace (has_id (rec_id p) p) with true
      by (symmetry; apply String.eqb_refl).
    cbn [filter].
    change (matching (mkRecord (rec_id p) "AAAA" HOSTNAME c)) with true.
    cbn iota. rewrite patched_absent by exact Hx. now rewrite E.
  - assert (Hp : In p l).
    { apply (proj1 (filter_In matching p l)). rewrite E. now left. }
    replace (has_id (rec_id p) x) with false.
    + cbn [filter]. rewrite Ex. now apply IH.
    + symmetry. apply String.eqb_neq. intro Ei. apply Hx. rewrite Ei.
      unfold ids. now apply in_map.
Qed.

Lemma matching_remove_all (rest l : list dns_record) :
  filter matching (remove_all rest l) = remove_all rest (filter matching l).
Proof.
  rewrite !remove_all_filter. apply filter_comm.
Qed.

(** After a pass over a zone with distinct identifiers exactly one record
    matches, and it carries the resolved address. *)
Lemma pass_settles (z : zone) :
  NoDup (ids (records z)) ->
  exists p,
    filter matching (records (final (pass z))) = [p] /\
    rec_content p = address z /\
    address (final (pass z)) = address z /\
    result (pass z) = Returned 0%Z.
Proof.
  intro Hnd. destruct (pass_after_fetch z) as (Hf & Hr & _). cbv zeta in *.
  rewrite Hf, Hr. clear Hf Hr.
  destruct (filter matching (records z)) as [| p rest] eqn:E.
  - cbn [map]. destruct (after_fetch_none z) as (Hf & Hr & _). cbv zeta in *.
    rewrite Hf, Hr. cbn [records address].
    rewrite filter_app, E. eexists. repeat split. 
  - pose proof (primary_present _ _ _ E) as Hp.
    destruct (after_fetch_some z p rest Hp) as (Hf & Hr & _). cbv zeta in *.
    rewrite Hf, Hr. cbn [records address]. rewrite matching_remove_all.
    pose proof (ids_filter_NoDup matching _ Hnd) as Hnd'. rewrite E in Hnd'.
    destruct (String.eqb_spec (rec_content p) (address z)) as [Ec | Ec].
    + rewrite E, remove_all_keeps_first by exact Hnd'. exists p. auto.
    + rewrite (matching_patched p rest _ _ Hnd E).
      rewrite remove_all_keeps_first by exact Hnd'. eexists. repeat split.
Qed.

(** ** The provider answers well *)

Lemma listed_records_are_records (l : list dns_record) :
  Forall is_record (map to_json l).
Proof.
  apply Forall_forall. intros post Hin.
  apply in_map_iff in Hin as (r & <- & _).
  unfold is_record. cbn. eauto 10.
Qed.

Lemma remove_all_subset (rest l : list dns_record) (x : dns_record) :
  In x (remove_all rest l) -> In x l.
Proof.
  rewrite remove_all_filter. intro H. now apply filter_In in H.
Qed.

Lemma patched_is_literal (i c : string) (l : list dns_record) (x : dns_record) :
  In x (patched i c l) -> rec_id x = i -> x = mkRecord i "AAAA" HOSTNAME c.
Proof.
  unfold patched. intros H Hi. apply in_map_iff in H as (y & E & _).
  unfold has_id in E. destruct (String.eqb_spec (rec_id y) i) as [Ey | Ey].
  - now symmetry.
  - subst x. contradiction.
Qed.

Lemma cloudflare_answers_well : answers_well cloudflare.
Proof.
  intros [m u auth data] z. unfold cloudflare. cbn [req_method req_url req_data].
  destruct m, u as [| zid | zid [| | | i | |]]; cbn [inspected req_method req_url];
    repeat match goal with
           | |- context [match str_field ?d ?k with _ => _ end] => destruct (str_field d k)
           | |- context [if existsb ?f ?l then _ else _] => destruct (existsb f l)
           end;
    try (eexists; split; [reflexivity |]; split;
         [ first [ discriminate | intros _; eexists; reflexivity ]
         | first [ discriminate
                 | intros _ _; eexists; split;
                   [reflexivity | apply listed_records_are_records] ] ]).
Qed.

Lemma read_only_answers_well : answers_well read_only.
Proof.
  intros r z. unfold read_only.
  destruct (req_method r) eqn:Em;
    [ destruct (cloudflare_answers_well r z) as (resp & E & H1 & H2);
      exists resp; auto
    | .. ];
    (eexists; split; [reflexivity |]; split;
     [ intros _; eexists; reflexivity | discriminate ]).
Qed.

(** ** Identifiers stay distinct at the provider *)

Lemma length_append (s t : string) :
  String.length (s ++ t)%string = (String.length s + String.length t)%nat.
Proof.
  induction s as [| c s IH]; cbn; [reflexivity | now rewrite IH].
Qed.

Lemma in_ids_length (i : string) (l : list dns_record) :
  In i (ids l) -> (String.length i <= String.length (String.concat "" (ids l)))%nat.
Proof.
  unfold ids. induction l as [| r l IH]; [contradiction |].
  cbn [map]. intros [<- | Hin].
  - destruct (map rec_id l); cbn [String.concat];
      rewrite ?length_append; lia.
  - specialize (IH Hin). destruct (map rec_id l) as [| j js] eqn:E; [contradiction |].
    change (String.concat "" (rec_id r :: j :: js))
      with (rec_id r ++ "" ++ String.concat "" (j :: js))%string.
    rewrite !length_append. lia.
Qed.

Lemma fresh_id_is_fresh (l : list dns_record) : ~ In (fresh_id l) (ids l).
Proof.
  intro H. apply in_ids_length in H. unfold fresh_id, ids in H.
  cbn [String.length] in H. lia.
Qed.

Lemma ids_replaced (i t n c : string) (l : list dns_record) :
  ids (map (fun x => if has_id i x then mkRecord i t n c else x) l) = ids l.
Proof.
  unfold ids. rewrite map_map. apply map_ext_in.
  intros x _. unfold has_id. destruct (String.eqb_spec (rec_id x) i); simpl; auto.
Qed.

(** Whatever the request, the provider keeps its identifiers distinct. *)
Lemma cloudflare_keeps_ids_distinct (r : request) (z : zone) :
  NoDup (ids (records z)) -> NoDup (ids (records (fst (cloudflare r z)))).
Proof.
  intro H. destruct r as [m u auth data]. unfold cloudflare.
  cbn [req_method req_url req_data].
  destruct m, u as [| zid | zid [| | | i | |]]; cbn [fst records]; try exact H;
    repeat match goal with
           | |- context [match str_field ?d ?k with _ => _ end] => destruct (str_field d k)
           | |- context [if existsb ?f ?l then _ else _] => destruct (existsb f l)
           end; cbn [fst records]; try exact H.
  - unfold ids. rewrite map_app. cbn [map rec_id].
    apply NoDup_app; [exact H | repeat constructor; intros [] |].
    intros i Hi [<- | []]. now apply (fresh_id_is_fresh (records z)).
  - rewrite ids_replaced. exact H.
  - now apply ids_filter_NoDup.
Qed.

(** So does a whole pass. *)
Lemma pass_keeps_ids_distinct (z : zone) :
  NoDup (ids (records z)) -> NoDup (ids (records (final (pass z)))).
Proof.
  intro H. destruct (pass_after_fetch z) as (-> & _). cbv zeta.
  destruct (filter matching (records z)) as [| p rest] eqn:E.
  - cbn [map]. destruct (after_fetch_none z) as (-> & _). cbn [records].
    apply (cloudflare_keeps_ids_distinct (create_request (address z)) z H).
  - destruct (after_fetch_some z p rest (primary_present _ _ _ E)) as (-> & _).
    cbn [records]. rewrite remove_all_filter. apply ids_filter_NoDup.
    destruct (String.eqb (rec_content p) (address z)); [exact H |].
    unfold patched. now rewrite ids_replaced.
Qed.

(** ** A pass against the provider *)

(** C1. After one pass over a zone whose record identifiers are distinct,
    the pass has returned, at most one record with the configured host name
    and type AAAA exists at the provider, and the content of that record is
    the resolved address. *)
Theorem pass_leaves_one_synced_record (z : zone) :
  NoDup (ids (records z)) ->
  let left := filter matching (records (final (pass z))) in
  result (pass z) = Returned 0%Z /\
  (List.length left <= 1)%nat /\
  forall r, In r left -> rec_content r = address z.
Proof.
  intro Hnd. destruct (pass_settles z Hnd) as (p & E & Hc & _ & Hr).
  cbv zeta. rewrite E. repeat split; auto.
  intros r [<- | []]. exact Hc.
Qed.

Lemma pass_leaves_one_synced_record_witness :
  let left := filter matching (records (final (pass scenario_c))) in
  result (pass scenario_c) = Returned 0%Z /\
  (List.length left <= 1)%nat /\
  forall r, In r left -> rec_content r = address scenario_c.
Proof.
  apply (pass_leaves_one_synced_record scenario_c).
  vm_compute. repeat constructor; simpl; intuition discriminate.
Defined.

(** C2. When no record of the zone has the configured host name and type
    AAAA, a pass issues exactly one create call, with type AAAA, the
    configured host name and the resolved address, no update and no delete
    call, and leaves exactly one matching record, whose content is the
    resolved address. *)
Theorem create_when_absent (z : zone) :
  filter matching (records z) = [] ->
  creates (events (pass z)) =
    [mkRequest POST (DnsRecords CLOUDFLARE_ZONE_ID) bearer
               (Some (newdata "AAAA" HOSTNAME (address z)))] /\
  updates (events (pass z)) = [] /\
  deletes (events (pass z)) = [] /\
  exists r, filter matching (records (final (pass z))) = [r] /\
            rec_content r = address z.
Proof.
  intro E. destruct (pass_after_fetch z) as (Hf & _ & Hc & Hu & Hd).
  cbv zeta in *. rewrite E in *. cbn [map] in *.
  destruct (after_fetch_none z) as (Hf' & _ & Hc' & Hu' & Hd'). cbv zeta in *.
  rewrite Hc, Hu, Hd, Hf, Hc', Hu', Hd', Hf'. cbn [records].
  repeat split. rewrite filter_app, E. eexists. split; reflexivity.
Qed.

Lemma create_when_absent_witness :
  creates (events (pass scenario_a)) =
    [mkRequest POST (DnsRecords CLOUDFLARE_ZONE_ID) bearer
               (Some (newdata "AAAA" HOSTNAME (address scenario_a)))] /\
  updates (events (pass scenario_a)) = [] /\
  deletes (events (pass scenario_a)) = [] /\
  exists r, filter matching (records (final (pass scenario_a))) = [r] /\
            rec_content r = address scenario_a.
Proof.
  apply (create_when_absent scenario_a). reflexivity.
Defined.

(** C3. When exactly one record matches, a pass issues no create and no
    delete call, and it issues an update of that record to the resolved
    address if and only if the record's content differed from it. *)
Theorem update_iff_content_differs (z : zone) (p : dns_record) :
  filter matching (records z) = [p] ->
  creates (events (pass z)) = [] /\
  deletes (events (pass z)) = [] /\
  updates (events (pass z)) =
    (if String.eqb (rec_content p) (address z) then []
     else [mkRequest PATCH (DnsRecord CLOUDFLARE_ZONE_ID (JStr (rec_id p))) bearer
                     (Some (newdata "AAAA" HOSTNAME (address z)))]) /\
  (updates (events (pass z)) <> [] <-> rec_content p <> address z).
Proof.
  intro E. destruct (pass_after_fetch z) as (_ & _ & Hc & Hu & Hd).
  cbv zeta in *. rewrite E in *.
  destruct (after_fetch_some z p [] (primary_present _ _ _ E))
    as (_ & _ & Hc' & Hu' & Hd'). cbv zeta in *.
  rewrite Hc, Hu, Hd, Hc', Hu', Hd'. repeat split; try reflexivity.
  - destruct (String.eqb_spec (rec_content p) (address z)); congruence.
  - destruct (String.eqb_spec (rec_content p) (address z)); [congruence | discriminate].
Qed.

Lemma update_iff_content_differs_witness :
  creates (events (pass scenario_b)) = [] /\
  deletes (events (pass scenario_b)) = [] /\
  updates (events (pass scenario_b)) =
    [mkRequest PATCH (DnsRecord CLOUDFLARE_ZONE_ID (JStr "r1")) bearer
               (Some (newdata "AAAA" HOSTNAME "2001:db8::2"))] /\
  (updates (events (pass scenario_b)) <> [] <-> "2001:db8::1" <> "2001:db8::2").
Proof.
  apply (update_iff_content_differs scenario_b
           (mkRecord "r1" "AAAA" HOSTNAME "2001:db8::1")).
  reflexivity.
Defined.

(** C4. When N > 1 records match, a pass issues exactly N-1 delete calls:
    one for each matching record but the first, in the order the provider
    listed them.  Nothing is assumed about the first record's content, so
    this holds whether or not it was updated. *)
Theorem delete_all_but_first (z : zone) (p : dns_record) (rest : list dns_record) :
  filter matching (records z) = p :: rest ->
  rest <> [] ->
  deletes (events (pass z)) =
    map (fun q => mkRequest DELETE (DnsRecord CLOUDFLARE_ZONE_ID (JStr (rec_id q)))
                            bearer None) rest /\
  List.length (deletes (events (pass z))) =
    (List.length (filter matching (records z)) - 1)%nat.
Proof.
  intros E _. destruct (pass_after_fetch z) as (_ & _ & _ & _ & Hd).
  cbv zeta in *. rewrite E in *.
  destruct (after_fetch_some z p rest (primary_present _ _ _ E))
    as (_ & _ & _ & _ & Hd'). cbv zeta in *.
  rewrite Hd, Hd'. split; [reflexivity |].
  rewrite length_map. simpl. lia.
Qed.

Lemma delete_all_but_first_witness :
  deletes (events (pass scenario_c)) =
    map (fun q => mkRequest DELETE (DnsRecord CLOUDFLARE_ZONE_ID (JStr (rec_id q)))
                            bearer None)
        [mkRecord "r2" "AAAA" HOSTNAME "2001:db8::9"] /\
  List.length (deletes (events (pass scenario_c))) =
    (List.length (filter matching (records scenario_c)) - 1)%nat.
Proof.
  apply (delete_all_but_first scenario_c (mkRecord "r1" "AAAA" HOSTNAME "2001:db8::9")).
  - reflexivity.
  - discriminate.
Defined.

(** C5. Idempotence: after a first pass over a zone whose record
    identifiers are distinct, a second pass with the same resolved address
    issues no create, update or delete call. *)
Theorem second_pass_writes_nothing (z : zone) :
  NoDup (ids (records z)) ->
  let z1 := final (pass z) in
  result (pass z) = Returned 0%Z /\
  address z1 = address z /\
  writes (events (pass z1)) = [].
Proof.
  intro Hnd. destruct (pass_settles z Hnd) as (p & E & Hc & Ha & Hr).
  cbv zeta. repeat split; auto.
  set (z1 := final (pass z)) in *.
  destruct (pass_after_fetch z1) as (_ & _ & Hcr & Hu & Hd).
  cbv zeta in *. rewrite E in *.
  destruct (after_fetch_some z1 p [] (primary_present _ _ _ E))
    as (_ & _ & Hc' & Hu' & Hd'). cbv zeta in *.
  unfold writes. rewrite Hcr, Hu, Hd, Hc', Hu', Hd', Ha, Hc, String.eqb_refl.
  reflexivity.
Qed.

Lemma second_pass_writes_nothing_witness :
  let z1 := final (pass scenario_c) in
  result (pass scenario_c) = Returned 0%Z /\
  address z1 = address scenario_c /\
  writes (events (pass z1)) = [].
Proof.
  apply (second_pass_writes_nothing scenario_c).
  vm_compute. repeat constructor; simpl; intuition discriminate.
Defined.

(** ** The filter, the events and the exit status *)

(** C6. On every list of fetched records, the list comprehension returns
    exactly the records whose name equals the configured host name and
    whose type equals "AAAA", in the order the provider returned them. *)
Theorem stored_posts_are_the_spec_filter (allposts : list json) :
  Forall has_name_and_type allposts ->
  stored_posts_of allposts = Returned (spec_filter allposts).
Proof.
  unfold spec_filter.
  induction 1 as [| post rest (name & type & En & Et) _ IH];
    cbn [stored_posts_of filter]; [reflexivity |].
  unfold named_and_typed at 1. rewrite En, Et, IH.
  destruct (py_eq_str name HOSTNAME); cbn; [| reflexivity].
  destruct (py_eq_str type "AAAA"); reflexivity.
Qed.

Lemma stored_posts_are_the_spec_filter_witness :
  stored_posts_of
    [to_json (mkRecord "r0" "A" HOSTNAME "192.0.2.1");
     to_json (mkRecord "r1" "AAAA" HOSTNAME "2001:db8::1");
     to_json (mkRecord "r2" "AAAA" "other.gnutt.se" "2001:db8::2");
     to_json (mkRecord "r3" "AAAA" HOSTNAME "2001:db8::3")] =
  Returned
    [to_json (mkRecord "r1" "AAAA" HOSTNAME "2001:db8::1");
     to_json (mkRecord "r3" "AAAA" HOSTNAME "2001:db8::3")].
Proof.
  apply (stored_posts_are_the_spec_filter
           [to_json (mkRecord "r0" "A" HOSTNAME "192.0.2.1");
            to_json (mkRecord "r1" "AAAA" HOSTNAME "2001:db8::1");
            to_json (mkRecord "r2" "AAAA" "other.gnutt.se" "2001:db8::2");
            to_json (mkRecord "r3" "AAAA" HOSTNAME "2001:db8::3")]).
  repeat constructor; do 2 eexists; split; reflexivity.
Defined.

(** C7, as the script has it.  Behind a gateway that answers with an error
    page the listing cannot be decoded, the exception is not caught, and
    the process does not exit with the success status. *)
Lemma exit_status_behind_bad_gateway : exit_status bad_gateway tt <> 0%Z.
Proof.
  vm_compute. discriminate.
Qed.

(** Against a provider that answers well the process exits with the
    success status: whatever the status codes are and whatever the provider
    did with the writes. *)
Theorem exit_success_when_answered
    {World : Type} (send : request -> World -> World * outcome Response) (w : World) :
  answers_well send -> exit_status send w = 0%Z.
Proof.
  intro H. unfold exit_status.
  destruct (main_returns send H w) as (a & ->). reflexivity.
Qed.

Lemma exit_success_when_answered_witness : exit_status read_only scenario_d = 0%Z.
Proof.
  apply (exit_success_when_answered read_only scenario_d).
  exact read_only_answers_well.
Defined.

(** C8. When the answer to a listing, an update or a delete has no
    ['result'] to extract (the body is not JSON, or decodes to something
    without that member), whatever its status code, the request is the last
    event of the run: it is not retried and nothing else is attempted; the
    exception ends the run and the process exits with the failure status. *)
Theorem fault_ends_run
    {World : Type} (send : request -> World -> World * outcome Response) (w : World)
    (before after : list event) (r : request) (resp : Response) (e : exn) :
  events (__main send w) = before ++ Call r (Returned resp) :: after ->
  inspected r = true ->
  result_of resp = Raised e ->
  after = [] /\ result (__main send w) = Raised e /\ exit_status send w = 1%Z.
Proof.
  intros E Hr He.
  destruct (main_stops send w before (Call r (Returned resp)) after e E) as (-> & Hres).
  - cbn. now rewrite Hr, He.
  - unfold exit_status. rewrite Hres. auto.
Qed.

Lemma fault_ends_run_witness :
  @nil event = [] /\
  result (__main broken_update scenario_d) = Raised (KeyError "result") /\
  exit_status broken_update scenario_d = 1%Z.
Proof.
  apply (fault_ends_run broken_update scenario_d
           [Call (mkRequest GET IpInfoIp None None)
                 (Returned (mkResponse 200 "2001:db8::2" None));
            Call (mkRequest GET (DnsRecords CLOUDFLARE_ZONE_ID) bearer None)
                 (answer 200 true (JArr (map to_json (records scenario_d))));
            Print (NotSame (JStr "2001:db8::1") "2001:db8::2")]
           []
           (update_request "r1" "2001:db8::2")
           (mkResponse 500 "" (Some (JObj [("success", JBool false)])))
           (KeyError "result")).
  - reflexivity.
  - reflexivity.
  - reflexivity.
Defined.

(** C9. Under any provider, one pass never issues both a create call and
    an update call. *)
Theorem create_excludes_update
    {World : Type} (send : request -> World -> World * outcome Response) (w : World) :
  creates (events (__main send w)) = [] \/ updates (events (__main send w)) = [].
Proof.
  destruct (main_events send w) as [H | (pre & ip & sp & w' & _ & -> & H)].
  - left. apply calls_nil. eapply Forall_impl; [| exact H]. now intros ev (? & _).
  - destruct sp as [| p rest].
    + right. unfold updates. rewrite calls_app.
      rewrite (calls_nil PATCH pre), (calls_nil PATCH (events _)).
      * reflexivity.
      * apply after_fetch_none_no_update.
      * eapply Forall_impl; [| exact H]. now intros ev (_ & ? & _).
    + left. unfold creates. rewrite calls_app.
      rewrite (calls_nil POST pre), (calls_nil POST (events _)).
      * reflexivity.
      * apply after_fetch_some_no_create.
      * eapply Forall_impl; [| exact H]. now intros ev (? & _).
Qed.

(** C10. Under any provider, every update request of a pass carries the
    literals "AAAA" and the configured host name, with the resolved
    address as content, whatever the fetched record held in its own type
    and name fields; and at the provider, every record left under the
    updated identifier has type "AAAA" and the configured host name. *)
Theorem update_carries_literals :
  (forall (World : Type) (send : request -> World -> World * outcome Response)
          (w : World) (r : request),
      In r (updates (events (__main send w))) ->
      exists ip id,
        snd (send (mkRequest GET IpInfoIp None None) w) = Returned ip /\
        r = mkRequest PATCH (DnsRecord CLOUDFLARE_ZONE_ID id) bearer
                      (Some (newdata "AAAA" HOSTNAME (text ip)))) /\
  (forall (z : zone) (p : dns_record) (rest : list dns_record) (x : dns_record),
      filter matching (records z) = p :: rest ->
      rec_content p <> address z ->
      In x (records (final (pass z))) ->
      rec_id x = rec_id p ->
      rec_type x = "AAAA" /\ rec_name x = HOSTNAME /\ rec_content x = address z).
Proof.
  split.
  - intros World send w r Hin.
    apply in_calls in Hin as (ans & Hin & Hm).
    assert (Hp : req_method r = PATCH).
    { cbn in Hm. destruct (req_method r); congruence. }
    destruct (main_events send w) as [H | (pre & ip & sp & w' & Eip & E & H)].
    + apply (proj1 (Forall_forall _ _) H) in Hin as (_ & Hno & _). congruence.
    + rewrite E in Hin. apply in_app_or in Hin as [Hin | Hin].
      * apply (proj1 (Forall_forall _ _) H) in Hin as (_ & Hno & _). congruence.
      * pose proof (after_fetch_patches send (text ip) sp w') as Hall.
        apply (proj1 (Forall_forall _ _) Hall) in Hin.
        destruct (Hin r ans eq_refl Hp) as (id & ->). eauto.
  - intros z p rest x E Hc Hin Hid.
    destruct (pass_after_fetch z) as (Hf & _). cbv zeta in Hf.
    rewrite E in Hf.
    destruct (after_fetch_some z p rest (primary_present _ _ _ E)) as (Hf' & _).
    cbv zeta in Hf'. rewrite Hf, Hf' in Hin. cbn [records] in Hin.
    apply String.eqb_neq in Hc. rewrite Hc in Hin.
    apply remove_all_subset in Hin.
    rewrite (patched_is_literal _ _ _ _ Hin Hid). auto.
Qed.

Lemma update_carries_literals_witness :
  (exists ip id,
      snd (cloudflare (mkRequest GET IpInfoIp None None) scenario_b) = Returned ip /\
      update_request "r1" "2001:db8::2" =
      mkRequest PATCH (DnsRecord CLOUDFLARE_ZONE_ID id) bearer
                (Some (newdata "AAAA" HOSTNAME (text ip)))) /\
  (rec_type (mkRecord "r1" "AAAA" HOSTNAME "2001:db8::2") = "AAAA" /\
   rec_name (mkRecord "r1" "AAAA" HOSTNAME "2001:db8::2") = HOSTNAME /\
   rec_content (mkRecord "r1" "AAAA" HOSTNAME "2001:db8::2") = address scenario_b).
Proof.
  split.
  - apply (proj1 update_carries_literals zone cloudflare scenario_b
                 (update_request "r1" "2001:db8::2")).
    vm_compute. now left.
  - apply (proj2 update_carries_literals scenario_b
                 (mkRecord "r1" "AAAA" HOSTNAME "2001:db8::1") []
                 (mkRecord "r1" "AAAA" HOSTNAME "2001:db8::2")).
    + reflexivity.
    + discriminate.
    + vm_compute. now left.
    + reflexivity.
Defined.

(** ** The run as a whole, under any provider *)

Section Whole.

Context {World : Type}.
Variable send : request -> World -> World * outcome Response.

(** [__main] spelled out up to the three [if] statements. *)
Lemma main_eq (w : World) :
  __main send w =
  let (w1, a1) := send address_request w in
  match a1 with
  | Raised e => mkRun w1 [Call address_request a1] (Raised e)
  | Returned ip =>
      let (w2, a2) := send list_request w1 in
      match a2 with
      | Raised e => mkRun w2 [Call address_request a1; Call list_request a2] (Raised e)
      | Returned resp =>
          match stored_posts_in resp with
          | Raised e =>
              mkRun w2 [Call address_request a1; Call list_request a2] (Raised e)
          | Returned stored_posts =>
              let r := after_fetch send (text ip) stored_posts w2 in
              mkRun (final r)
                    (Call address_request a1 :: Call list_request a2 :: events r)
                    (result r)
          end
      end
  end.
Proof.
  rewrite main_unfold. unfold fetch_all_dns.
  unfold bind, http, lift, stored_posts_in, result_of.
  fold address_request. fold list_request.
  destruct (send address_request w) as [w1 [ip | e]]; cbn -[after_fetch]; [| reflexivity].
  destruct (send list_request w1) as [w2 [resp | e]]; cbn -[after_fetch]; [| reflexivity].
  destruct (json_of resp) as [decoded | e]; cbn -[after_fetch]; [| reflexivity].
  destruct (subscript decoded "result") as [allposts | e]; cbn -[after_fetch]; [| reflexivity].
  destruct (iterate allposts) as [posts | e]; cbn -[after_fetch]; [| reflexivity].
  destruct (stored_posts_of posts) as [stored_posts | e]; cbn -[after_fetch]; reflexivity.
Qed.

Lemma main_fetched (w : World) (ip resp : Response) (stored_posts : list json) :
  fetches send w ip resp stored_posts ->
  __main send w =
  let r := after_fetch send (text ip) stored_posts (after_reads send w) in
  mkRun (final r)
        (Call address_request (Returned ip) :: Call list_request (Returned resp) :: events r)
        (result r).
Proof.
  intros (E1 & E2 & E3). rewrite main_eq. unfold after_reads.
  destruct (send address_request w) as [w1 a1]. cbn [fst snd] in *. subst a1.
  destruct (send list_request w1) as [w2 a2]. cbn [fst snd] in *. subst a2.
  now rewrite E3.
Qed.

(** A run that does not get through both reads has no other event. *)
Lemma main_not_fetched (w : World) :
  (exists ip resp stored_posts, fetches send w ip resp stored_posts) \/
  (exists e, result (__main send w) = Raised e /\
             Forall (fun ev => exists ans, ev = Call address_request ans \/
                                           ev = Call list_request ans)
                    (events (__main send w))).
Proof.
  rewrite main_eq. unfold fetches.
  destruct (send address_request w) as [w1 [ip | e]]; cbn [fst snd].
  - destruct (send list_request w1) as [w2 [resp | e]]; cbn [fst snd].
    + destruct (stored_posts_in resp) as [sp | e] eqn:E.
      * left. eauto 6.
      * right. exists e. split; [reflexivity |]. cbn. repeat constructor; eauto.
    + right. exists e. split; [reflexivity |]. cbn. repeat constructor; eauto.
  - right. exists e. split; [reflexivity |]. cbn. repeat constructor; eauto.
Qed.

Lemma after_fetch_nil (ip : string) (w : World) :
  after_fetch send ip [] w =
  let create := mkRequest POST (DnsRecords CLOUDFLARE_ZONE_ID) bearer
                          (Some (newdata "AAAA" HOSTNAME ip)) in
  let (w', a) := send create w in
  mkRun w' [Print (NoKnowledge ip); Call create a]
        (match a with
         | Returned _ => Returned 0%Z
         | Raised e => Raised e
         end).
Proof.
  unfold after_fetch, create_if_absent, update_primary, remove_spares, create_dns_post.
  unfold bind, http, print, ret. cbn.
  destruct (send _ w) as [w' [resp | e]]; reflexivity.
Qed.

Lemma update_primary_run (ip : string) (p : json) (rest : list json) (w : World) :
  update_primary send ip (p :: rest) w =
  match subscript p "content" with
  | Raised e => mkRun w [] (Raised e)
  | Returned content =>
      if py_eq_str content ip then mkRun w [] (Returned tt)
      else
        match subscript p "id" with
        | Raised e => mkRun w [Print (NotSame content ip)] (Raised e)
        | Returned id =>
            let patch := mkRequest PATCH (DnsRecord CLOUDFLARE_ZONE_ID id) bearer
                                   (Some (newdata "AAAA" HOSTNAME ip)) in
            let (w', a) := send patch w in
            mkRun w' [Print (NotSame content ip); Call patch a]
                  (match a with
                   | Returned resp =>
                       match result_of resp with
                       | Returned _ => Returned tt
                       | Raised e => Raised e
                       end
                   | Raised e => Raised e
                   end)
        end
  end.
Proof.
  unfold update_primary, update_dns_post. unfold bind, http, print, lift, ret, result_of.
  cbn. destruct (subscript p "content") as [content | e]; cbn; [| reflexivity].
  destruct (py_eq_str content ip); cbn; [reflexivity |].
  destruct (subscript p "id") as [id | e]; cbn; [| reflexivity].
  destruct (send _ w) as [w' [resp | e]]; cbn; [| reflexivity].
  destruct (json_of resp) as [decoded | e]; cbn; [| reflexivity].
  destruct (subscript decoded "result"); reflexivity.
Qed.

Lemma remove_post_run (post : json) (w : World) :
  remove_post send post w =
  match subscript post "id" with
  | Raised e => mkRun w [] (Raised e)
  | Returned id =>
      match subscript post "content" with
      | Raised e => mkRun w [] (Raised e)
      | Returned address =>
          let delete := mkRequest DELETE (DnsRecord CLOUDFLARE_ZONE_ID id) bearer None in
          let (w', a) := send delete w in
          mkRun w' [Print (Removing id address); Call delete a]
                (match a with
                 | Returned resp =>
                     match result_of resp with
                     | Returned _ => Returned tt
                     | Raised e => Raised e
                     end
                 | Raised e => Raised e
                 end)
      end
  end.
Proof.
  unfold remove_post, delete_dns_post. unfold bind, http, print, lift, ret, result_of.
  cbn. destruct (subscript post "id") as [id | e]; cbn; [| reflexivity].
  destruct (subscript post "content") as [address | e]; cbn; [| reflexivity].
  destruct (send _ w) as [w' [resp | e]]; cbn; [| reflexivity].
  destruct (json_of resp) as [decoded | e]; cbn; [| reflexivity].
  destruct (subscript decoded "result"); reflexivity.
Qed.

Lemma remove_spares_run (p : json) (rest : list json) (w : World) :
  remove_spares send (p :: rest) w =
  match rest with
  | [] => mkRun w [] (Returned tt)
  | _ :: _ =>
      let l := for_each rest (remove_post send) w in
      mkRun (final l) (Print SpareExists :: events l) (result l)
  end.
Proof.
  unfold remove_spares. destruct rest as [| q rest]; [reflexivity |].
  cbn [List.length Nat.ltb Nat.leb tl]. unfold bind at 1, print. cbn [result final events app].
  reflexivity.
Qed.

Lemma after_fetch_cons (ip : string) (p : json) (rest : list json) (w : World) :
  after_fetch send ip (p :: rest) w =
  let u := update_primary send ip (p :: rest) w in
  match result u with
  | Raised e => mkRun (final u) (events u) (Raised e)
  | Returned _ =>
      let s := remove_spares send (p :: rest) (final u) in
      mkRun (final s) (events u ++ events s)
            (match result s with
             | Returned _ => Returned 0%Z
             | Raised e => Raised e
             end)
  end.
Proof.
  unfold after_fetch, create_if_absent. cbn [List.length Nat.eqb].
  unfold bind, ret. cbn [result final events app]. cbv zeta.
  destruct (result (update_primary send ip (p :: rest) w)); [| reflexivity].
  cbn [result final events app].
  destruct (result (remove_spares send (p :: rest) _)); cbn [result final events];
    now rewrite ?app_nil_r.
Qed.

(** The loop deletes the spares in order and stops where one fails. *)
Lemma remove_posts_prefix (l : list json) (w : World) :
  exists done todo,
    l = done ++ todo /\
    deletes_of done (deletes (events (for_each l (remove_post send) w))) /\
    (returns (for_each l (remove_post send) w) -> todo = []).
Proof.
  revert w. induction l as [| post rest IH]; intro w.
  - exists [], []. repeat split; constructor.
  - cbn [for_each]. unfold bind. rewrite remove_post_run.
    destruct (subscript post "id") as [id | e] eqn:Eid; cbn [result final events];
      [| exists [], (post :: rest); repeat split; [constructor | intros (? & ?); discriminate]].
    destruct (subscript post "content") as [address | e]; cbn [result final events];
      [| exists [], (post :: rest); repeat split; [constructor | intros (? & ?); discriminate]].
    destruct (send _ w) as [w' [resp | e]]; cbn [result final events].
    + destruct (result_of resp); cbn [result final events].
      * destruct (IH w') as (done & todo & -> & Hd & Ht).
        exists (post :: done), todo. repeat split.
        -- cbn. constructor; [eauto | exact Hd].
        -- intros (v & Hv). apply Ht. now exists v.
      * exists [post], rest. repeat split.
        -- cbn. constructor; [eauto | constructor].
        -- intros (? & ?); discriminate.
    + exists [post], rest. repeat split.
      * cbn. constructor; [eauto | constructor].
      * intros (? & ?); discriminate.
Qed.

End Whole.

(** ** More on the comprehension *)

Lemma stored_posts_of_cons (post : json) (rest : list json) :
  stored_posts_of (post :: rest) =
  match subscript post "name" with
  | Raised e => Raised e
  | Returned name =>
      if py_eq_str name HOSTNAME then
        match subscript post "type" with
        | Raised e => Raised e
        | Returned type =>
            match stored_posts_of rest with
            | Raised e => Raised e
            | Returned tl => Returned (if py_eq_str type "AAAA" then post :: tl else tl)
            end
        end
      else stored_posts_of rest
  end.
Proof.
  cbn [stored_posts_of].
  destruct (subscript post "name") as [name | e]; [| reflexivity].
  destruct (py_eq_str name HOSTNAME).
  - destruct (subscript post "type"); reflexivity.
  - destruct (stored_posts_of rest); reflexivity.
Qed.

(** X1. The comprehension returns exactly when every listed item has a
    name and every item that carries the configured name has a type: an
    item with another name is never asked for its type. *)
Theorem stored_posts_returns_iff_readable (allposts : list json) :
  (exists stored_posts, stored_posts_of allposts = Returned stored_posts) <->
  Forall readable allposts.
Proof.
  induction allposts as [| post rest IH].
  - split; [constructor | now exists []].
  - rewrite stored_posts_of_cons. split.
    + intros (sp & E).
      destruct (subscript post "name") as [name | e] eqn:En; [| discriminate].
      destruct (py_eq_str name HOSTNAME) eqn:Eh.
      * destruct (subscript post "type") as [type | e] eqn:Et; [| discriminate].
        destruct (stored_posts_of rest) as [tl | e]; [| discriminate].
        constructor; [| apply IH; eauto].
        exists name. split; [exact En | eauto].
      * constructor; [| apply IH; eauto].
        exists name. split; [exact En | congruence].
    + intro H. inversion H as [| ? ? (name & En & Ht) Hrest]; subst.
      apply IH in Hrest as (tl & Etl). rewrite En, Etl.
      destruct (py_eq_str name HOSTNAME); [| eauto].
      destruct (Ht eq_refl) as (type & ->). eauto.
Qed.

(** X2. Whenever the comprehension returns, what it returns is the list
    of the items whose name is the configured host name and whose type is
    "AAAA", in listing order; nothing is assumed about the items. *)
Theorem stored_posts_whenever_returned (allposts stored_posts : list json) :
  stored_posts_of allposts = Returned stored_posts ->
  stored_posts = spec_filter allposts.
Proof.
  unfold spec_filter. revert stored_posts.
  induction allposts as [| post rest IH]; intros sp E.
  - now injection E as <-.
  - rewrite stored_posts_of_cons in E. cbn [filter]. unfold named_and_typed at 1.
    destruct (subscript post "name") as [name | e]; [| discriminate].
    destruct (py_eq_str name HOSTNAME).
    + destruct (subscript post "type") as [type | e]; [| discriminate].
      destruct (stored_posts_of rest) as [tl | e]; [| discriminate].
      injection E as <-. cbn [andb]. rewrite (IH tl eq_refl).
      destruct (py_eq_str type "AAAA"); reflexivity.
    + cbn [andb]. destruct (subscript post "type"); now apply IH.
Qed.

Lemma stored_posts_whenever_returned_witness :
  [to_json (mkRecord "r1" "AAAA" HOSTNAME "2001:db8::1")] =
  spec_filter [JObj [("name", JStr "mail.gnutt.se")];
               to_json (mkRecord "r1" "AAAA" HOSTNAME "2001:db8::1")].
Proof.
  apply (stored_posts_whenever_returned
           [JObj [("name", JStr "mail.gnutt.se")];
            to_json (mkRecord "r1" "AAAA" HOSTNAME "2001:db8::1")]).
  reflexivity.
Defined.

(** X3. The comprehension raises at the first item it cannot read, with
    that item's exception: the one of [post['name']], or the one of
    [post['type']] when the name is the configured one.  Items further down
    the listing are not looked at. *)
Theorem stored_posts_first_error (good rest : list json) (bad : json) (e : exn) :
  Forall readable good ->
  subscript bad "name" = Raised e \/
  (exists name, subscript bad "name" = Returned name /\
                py_eq_str name HOSTNAME = true /\
                subscript bad "type" = Raised e) ->
  stored_posts_of (good ++ bad :: rest) = Raised e.
Proof.
  intros Hgood Hbad. induction Hgood as [| post good (name & En & Ht) _ IH].
  - cbn [app]. rewrite stored_posts_of_cons.
    destruct Hbad as [-> | (name & -> & -> & ->)]; reflexivity.
  - cbn [app]. rewrite stored_posts_of_cons, En, IH.
    destruct (py_eq_str name HOSTNAME); [| reflexivity].
    destruct (Ht eq_refl) as (type & ->). reflexivity.
Qed.

Lemma stored_posts_first_error_witness :
  stored_posts_of
    ([to_json (mkRecord "r1" "AAAA" HOSTNAME "2001:db8::1")]
       ++ JObj [("id", JStr "r2"); ("type", JStr "AAAA")]
       :: [JNull]) =
  Raised (KeyError "name").
Proof.
  apply (stored_posts_first_error
           [to_json (mkRecord "r1" "AAAA" HOSTNAME "2001:db8::1")] [JNull]
           (JObj [("id", JStr "r2"); ("type", JStr "AAAA")]) (KeyError "name")).
  - repeat constructor. eexists. split; [reflexivity |]. intros _. eexists. reflexivity.
  - left. reflexivity.
Defined.

(** ** More on the run as a whole *)

Section Runs.

Context {World : Type}.
Variable send : request -> World -> World * outcome Response.

Lemma reads_are_quiet (t : list event) :
  Forall (fun ev => exists ans, ev = Call address_request ans \/
                                ev = Call list_request ans) t ->
  creates t = [] /\ updates t = [] /\ deletes t = [].
Proof.
  intro H. repeat split; apply calls_nil; eapply Forall_impl; try exact H;
    intros ev (ans & [-> | ->]); reflexivity.
Qed.

(** X4. Under any provider, a run that issues a create, update or delete
    has first been answered by the address service and by the listing, and
    the comprehension has returned: the two reads are its first two events. *)
Theorem writes_need_both_reads (w : World) :
  writes (events (__main send w)) <> [] ->
  exists ip resp stored_posts rest,
    fetches send w ip resp stored_posts /\
    events (__main send w) =
      Call address_request (Returned ip) :: Call list_request (Returned resp) :: rest.
Proof.
  intro Hw. destruct (main_not_fetched send w) as [(ip & resp & sp & F) | (e & _ & H)].
  - exists ip, resp, sp. rewrite (main_fetched send w ip resp sp F). cbn [events]. eauto.
  - exfalso. apply Hw. unfold writes.
    destruct (reads_are_quiet _ H) as (-> & -> & ->). reflexivity.
Qed.

(** X5. When the request to the address service raises, it is the only
    event of the run: the provider is not contacted and the exception ends
    the run. *)
Theorem unresolved_address_contacts_nobody (w : World) (e : exn) :
  snd (send address_request w) = Raised e ->
  events (__main send w) = [Call address_request (Raised e)] /\
  result (__main send w) = Raised e /\
  final (__main send w) = fst (send address_request w).
Proof.
  intro E. rewrite main_eq. destruct (send address_request w) as [w1 a1].
  cbn [fst snd] in *. subst a1. auto.
Qed.

(** X6. When the listing cannot be used (the request raises, the body is
    not JSON, ['result'] is missing or is not iterable, or an item cannot be
    read by the comprehension), the run ends with that exception after the
    two reads, and nothing is written. *)
Theorem unusable_listing_ends_run (w : World) (ip : Response) (e : exn) :
  snd (send address_request w) = Returned ip ->
  let answer := snd (send list_request (fst (send address_request w))) in
  answer = Raised e \/
  (exists resp, answer = Returned resp /\ stored_posts_in resp = Raised e) ->
  events (__main send w) =
    [Call address_request (Returned ip); Call list_request answer] /\
  result (__main send w) = Raised e /\
  writes (events (__main send w)) = [].
Proof.
  intros E1 answer H. subst answer. rewrite main_eq.
  destruct (send address_request w) as [w1 a1]. cbn [fst snd] in *. subst a1.
  destruct (send list_request w1) as [w2 a2]. cbn [fst snd] in *.
  destruct H as [-> | (resp & -> & ->)]; auto.
Qed.

Lemma after_fetch_Forall (P : event -> Prop) (ip : string) (stored_posts : list json)
      (w : World) :
  (forall l, P (Print l)) ->
  (forall a, P (Call (mkRequest POST (DnsRecords CLOUDFLARE_ZONE_ID) bearer
                                (Some (newdata "AAAA" HOSTNAME ip))) a)) ->
  (forall id a, P (Call (mkRequest PATCH (DnsRecord CLOUDFLARE_ZONE_ID id) bearer
                                   (Some (newdata "AAAA" HOSTNAME ip))) a)) ->
  (forall id a, P (Call (mkRequest DELETE (DnsRecord CLOUDFLARE_ZONE_ID id) bearer None) a)) ->
  Forall P (events (after_fetch send ip stored_posts w)).
Proof.
  intros Hprint Hpost Hpatch Hdelete. destruct stored_posts as [| p rest].
  - rewrite after_fetch_nil. cbv zeta. destruct (send _ w) as [w' a].
    cbn [events]. repeat constructor; auto.
  - rewrite after_fetch_cons. cbv zeta.
    assert (Hu : Forall P (events (update_primary send ip (p :: rest) w))).
    { rewrite update_primary_run.
      destruct (subscript p "content") as [content | e]; [| constructor].
      destruct (py_eq_str content ip); [constructor |].
      destruct (subscript p "id") as [id | e]; [| repeat constructor; auto].
      cbv zeta. destruct (send _ w) as [w' a]. repeat constructor; auto. }
    destruct (result (update_primary send ip (p :: rest) w)); cbn [events]; [| exact Hu].
    apply Forall_app. split; [exact Hu |].
    rewrite remove_spares_run. destruct rest as [| q rest]; [constructor |].
    cbv zeta. cbn [events]. constructor; [auto |].
    now apply remove_posts_deletes.
Qed.

(** X7. Under any provider, every request of a run is one of five: the
    address lookup (without credential), the listing of the configured
    zone, a POST of {AAAA, configured name, resolved address} to that zone,
    or a PATCH with that same body or a DELETE on a record of that zone.
    The last four carry the bearer credential. *)
Theorem every_request_is_scripted (w : World) (ip : Response) (r : request)
    (ans : outcome Response) :
  snd (send address_request w) = Returned ip ->
  In (Call r ans) (events (__main send w)) ->
  scripted (text ip) r.
Proof.
  intros E Hin.
  rewrite main_eq in Hin. destruct (send address_request w) as [w1 a1].
  cbn [fst snd] in E. subst a1. destruct (send list_request w1) as [w2 [resp | e]].
  - destruct (stored_posts_in resp) as [sp | e]; cbn [events] in Hin.
    + destruct Hin as [Hin | [Hin | Hin]];
        [injection Hin as <- _; unfold scripted; auto
        | injection Hin as <- _; unfold scripted; auto |].
      pose proof (after_fetch_Forall
                    (fun ev => forall r ans, ev = Call r ans -> scripted (text ip) r)
                    (text ip) sp w2) as H.
      apply (proj1 (Forall_forall _ _) (H ltac:(discriminate)
               ltac:(intros a r' ans' Er; injection Er as <- _; unfold scripted; auto)
               ltac:(intros id a r' ans' Er; injection Er as <- _; unfold scripted; eauto 6)
               ltac:(intros id a r' ans' Er; injection Er as <- _; unfold scripted; eauto 6))
             _ Hin r ans eq_refl).
    + destruct Hin as [Hin | [Hin | []]]; injection Hin as <- _; unfold scripted; auto.
  - cbn [events] in Hin.
    destruct Hin as [Hin | [Hin | []]]; injection Hin as <- _; unfold scripted; auto.
Qed.

Lemma update_primary_calls (ip : string) (p : json) (rest : list json) (w : World) :
  let t := events (update_primary send ip (p :: rest) w) in
  creates t = [] /\ deletes t = [] /\ (List.length (updates t) <= 1)%nat.
Proof.
  cbv zeta. rewrite update_primary_run.
  destruct (subscript p "content") as [content | e]; [| cbn; auto].
  destruct (py_eq_str content ip); [cbn; auto |].
  destruct (subscript p "id") as [id | e]; [| cbn; auto].
  cbv zeta. destruct (send _ w) as [w' a]. cbn. auto.
Qed.

Lemma remove_spares_calls (p : json) (rest : list json) (w : World) :
  let t := events (remove_spares send (p :: rest) w) in
  creates t = [] /\ updates t = [].
Proof.
  cbv zeta. rewrite remove_spares_run. destruct rest as [| q rest]; [cbn; auto |].
  cbv zeta. cbn [events].
  split; apply calls_nil; (constructor; [reflexivity |]);
    apply remove_posts_deletes; reflexivity.
Qed.

Lemma calls_after_reads (m : method) (a1 a2 : outcome Response) (t : list event) :
  m <> GET ->
  calls m (Call address_request a1 :: Call list_request a2 :: t) = calls m t.
Proof.
  intro H. destruct m; [contradiction | reflexivity ..].
Qed.

(** X8. Under any provider, a run issues at most one create call and at
    most one update call. *)
Theorem at_most_one_create_and_one_update (w : World) :
  (List.length (creates (events (__main send w))) <= 1)%nat /\
  (List.length (updates (events (__main send w))) <= 1)%nat.
Proof.
  destruct (main_not_fetched send w) as [(ip & resp & sp & F) | (e & _ & H)].
  - rewrite (main_fetched send w ip resp sp F). cbv zeta. cbn [events].
    unfold creates, updates. rewrite !calls_after_reads by discriminate.
    destruct sp as [| p rest].
    + rewrite after_fetch_nil. cbv zeta. destruct (send _ _) as [w' a]. cbn. auto.
    + rewrite after_fetch_cons. cbv zeta.
      destruct (update_primary_calls (text ip) p rest (after_reads send w))
        as (Hc & _ & Hu). cbv zeta in Hc, Hu. unfold creates, updates in Hc, Hu.
      destruct (result (update_primary send (text ip) (p :: rest) _)); cbn [events].
      * destruct (remove_spares_calls p rest
                    (final (update_primary send (text ip) (p :: rest)
                                           (after_reads send w)))) as (Hc' & Hu').
        cbv zeta in Hc', Hu'. unfold creates, updates in Hc', Hu'.
        rewrite !calls_app, Hc, Hc', Hu', !app_nil_r.
        split; [cbn [app List.length]; lia | exact Hu].
      * rewrite Hc. split; [cbn [List.length]; lia | exact Hu].
  - destruct (reads_are_quiet _ H) as (-> & -> & _). cbn. lia.
Qed.

(** X9. Under any provider, when the comprehension finds no record the
    run prints one line and issues the POST, and that is all; the answer to
    the POST is not looked at: the run returns 0 whenever the request itself
    returns, whatever its status code and body. *)
Theorem create_answer_is_ignored (w : World) (ip resp : Response) :
  fetches send w ip resp [] ->
  let create := mkRequest POST (DnsRecords CLOUDFLARE_ZONE_ID) bearer
                          (Some (newdata "AAAA" HOSTNAME (text ip))) in
  let answer := snd (send create (after_reads send w)) in
  events (__main send w) =
    [Call address_request (Returned ip); Call list_request (Returned resp);
     Print (NoKnowledge (text ip)); Call create answer] /\
  result (__main send w) =
    match answer with
    | Returned _ => Returned 0%Z
    | Raised e => Raised e
    end.
Proof.
  intro F. cbv zeta. rewrite (main_fetched send w ip resp [] F), after_fetch_nil.
  cbv zeta. destruct (send _ (after_reads send w)) as [w' a]. cbn. auto.
Qed.

(** X10. Under any provider, when the comprehension finds exactly one
    record and its content is the resolved address, the two reads are the
    only events of the run and it returns 0; the record's other fields are
    not read. *)
Theorem in_sync_only_reads (w : World) (ip resp : Response) (p content : json) :
  fetches send w ip resp [p] ->
  subscript p "content" = Returned content ->
  py_eq_str content (text ip) = true ->
  events (__main send w) =
    [Call address_request (Returned ip); Call list_request (Returned resp)] /\
  result (__main send w) = Returned 0%Z /\
  final (__main send w) = after_reads send w.
Proof.
  intros F Ec Eq. rewrite (main_fetched send w ip resp [p] F), after_fetch_cons.
  cbv zeta. rewrite update_primary_run, Ec, Eq. cbn [result final events].
  rewrite remove_spares_run. cbn. auto.
Qed.

(** X11. Under any provider, the delete calls of a run go through the
    records after the first one in listing order and stop where the run
    stops: they are the DELETEs of the identifiers of a prefix of those
    records, the whole of them when the run returns.  The first record is
    not among them. *)
Theorem deletes_follow_the_spares (w : World) (ip resp : Response) (p : json)
    (rest : list json) :
  fetches send w ip resp (p :: rest) ->
  exists done todo,
    rest = done ++ todo /\
    deletes_of done (deletes (events (__main send w))) /\
    (returns (__main send w) -> todo = []).
Proof.
  intro F. rewrite (main_fetched send w ip resp (p :: rest) F). cbv zeta. cbn [events].
  unfold deletes. rewrite calls_after_reads by discriminate.
  rewrite after_fetch_cons. cbv zeta.
  destruct (update_primary_calls (text ip) p rest (after_reads send w)) as (_ & Hd & _).
  cbv zeta in Hd. unfold deletes in Hd.
  destruct (result (update_primary send (text ip) (p :: rest) _)); cbn [events].
  - rewrite calls_app, Hd. cbn [app]. rewrite remove_spares_run.
    destruct rest as [| q rest].
    + exists [], []. repeat split. constructor.
    + cbv zeta. cbn [events].
      destruct (remove_posts_prefix send (q :: rest)
                  (final (update_primary send (text ip) (p :: q :: rest)
                                         (after_reads send w))))
        as (done & todo & E & Hdone & Htodo).
      exists done, todo. repeat split; [exact E | exact Hdone |].
      intros (v & Hv). apply Htodo. unfold returns. cbn [result] in Hv.
      destruct (result (for_each (q :: rest) (remove_post send) _)); [eauto | discriminate].
  - exists [], rest. rewrite Hd. repeat split; [constructor |].
    intros (v & Hv). discriminate.
Qed.

(** X12. Under any provider, when the first record found has no content
    to read, or has a differing content but no identifier, the run ends with
    that exception without any create, update or delete: the records after
    it are left in place. *)
Theorem primary_without_field_writes_nothing (w : World) (ip resp : Response)
    (p : json) (rest : list json) (e : exn) :
  fetches send w ip resp (p :: rest) ->
  subscript p "content" = Raised e \/
  (exists content, subscript p "content" = Returned content /\
                   py_eq_str content (text ip) = false /\
                   subscript p "id" = Raised e) ->
  writes (events (__main send w)) = [] /\ result (__main send w) = Raised e.
Proof.
  intros F H. rewrite (main_fetched send w ip resp (p :: rest) F), after_fetch_cons.
  cbv zeta. rewrite update_primary_run.
  destruct H as [-> | (content & -> & -> & ->)]; cbn; auto.
Qed.

End Runs.

Lemma writes_need_both_reads_witness :
  exists ip resp stored_posts rest,
    fetches cloudflare scenario_b ip resp stored_posts /\
    events (__main cloudflare scenario_b) =
      Call address_request (Returned ip) :: Call list_request (Returned resp) :: rest.
Proof.
  apply (writes_need_both_reads cloudflare scenario_b). vm_compute. discriminate.
Defined.

Lemma unresolved_address_contacts_nobody_witness :
  events (__main offline tt) = [Call address_request (Raised RequestException)] /\
  result (__main offline tt) = Raised RequestException /\
  final (__main offline tt) = fst (offline address_request tt).
Proof.
  apply (unresolved_address_contacts_nobody offline tt RequestException). reflexivity.
Defined.

Lemma unusable_listing_ends_run_witness :
  let answer :=
    snd (canned "2001:db8::1" JNull list_request
                (fst (canned "2001:db8::1" JNull address_request tt))) in
  events (__main (canned "2001:db8::1" JNull) tt) =
    [Call address_request (Returned (mkResponse 200 "2001:db8::1" None));
     Call list_request answer] /\
  result (__main (canned "2001:db8::1" JNull) tt) = Raised TypeError /\
  writes (events (__main (canned "2001:db8::1" JNull) tt)) = [].
Proof.
  apply (unusable_listing_ends_run (canned "2001:db8::1" JNull) tt
           (mkResponse 200 "2001:db8::1" None) TypeError).
  - reflexivity.
  - right. eexists. split; reflexivity.
Defined.

Lemma every_request_is_scripted_witness :
  scripted "2001:db8::9"
           (mkRequest DELETE (DnsRecord CLOUDFLARE_ZONE_ID (JStr "r2")) bearer None).
Proof.
  apply (every_request_is_scripted cloudflare scenario_c
           (mkResponse 200 "2001:db8::9" None)
           (mkRequest DELETE (DnsRecord CLOUDFLARE_ZONE_ID (JStr "r2")) bearer None)
           (answer 200 true (JObj [("id", JStr "r2")]))).
  - reflexivity.
  - vm_compute. auto 10.
Defined.

Lemma create_answer_is_ignored_witness :
  let ip := mkResponse 200 "2001:db8::1" None in
  let resp := mkResponse 200 "" (Some (JObj [("result", JArr (map to_json (records scenario_a)));
                                             ("success", JBool true)])) in
  let create := mkRequest POST (DnsRecords CLOUDFLARE_ZONE_ID) bearer
                          (Some (newdata "AAAA" HOSTNAME (text ip))) in
  let answer := snd (read_only create (after_reads read_only scenario_a)) in
  events (__main read_only scenario_a) =
    [Call address_request (Returned ip); Call list_request (Returned resp);
     Print (NoKnowledge (text ip)); Call create answer] /\
  result (__main read_only scenario_a) =
    match answer with
    | Returned _ => Returned 0%Z
    | Raised e => Raised e
    end.
Proof.
  apply (create_answer_is_ignored read_only scenario_a).
  repeat split; reflexivity.
Defined.

Lemma in_sync_only_reads_witness :
  let listing := JArr [JObj [("name", JStr HOSTNAME); ("type", JStr "AAAA");
                             ("content", JStr "2001:db8::1")]] in
  let ip := mkResponse 200 "2001:db8::1" None in
  let resp := mkResponse 200 "" (Some (JObj [("result", listing); ("success", JBool true)])) in
  events (__main (canned "2001:db8::1" listing) tt) =
    [Call address_request (Returned ip); Call list_request (Returned resp)] /\
  result (__main (canned "2001:db8::1" listing) tt) = Returned 0%Z /\
  final (__main (canned "2001:db8::1" listing) tt) =
    after_reads (canned "2001:db8::1" listing) tt.
Proof.
  cbv zeta.
  apply (in_sync_only_reads _ tt _ _
           (JObj [("name", JStr HOSTNAME); ("type", JStr "AAAA");
                  ("content", JStr "2001:db8::1")])
           (JStr "2001:db8::1")).
  - repeat split; reflexivity.
  - reflexivity.
  - reflexivity.
Defined.

Lemma deletes_follow_the_spares_witness :
  exists done todo,
    [to_json (mkRecord "r2" "AAAA" HOSTNAME "2001:db8::1")] = done ++ todo /\
    deletes_of done (deletes (events (__main cloudflare scenario_d))) /\
    (returns (__main cloudflare scenario_d) -> todo = []).
Proof.
  apply (deletes_follow_the_spares cloudflare scenario_d
           (mkResponse 200 "2001:db8::2" None)
           (mkResponse 200 "" (Some (JObj [("result", JArr (map to_json (records scenario_d)));
                                           ("success", JBool true)])))
           (to_json (mkRecord "r1" "AAAA" HOSTNAME "2001:db8::1"))).
  repeat split; reflexivity.
Defined.

Lemma primary_without_field_writes_nothing_witness :
  let listing := JArr [JObj [("id", JStr "r1"); ("name", JStr HOSTNAME);
                             ("type", JStr "AAAA")];
                       to_json (mkRecord "r2" "AAAA" HOSTNAME "2001:db8::1")] in
  writes (events (__main (canned "2001:db8::2" listing) tt)) = [] /\
  result (__main (canned "2001:db8::2" listing) tt) = Raised (KeyError "content").
Proof.
  cbv zeta.
  apply (primary_without_field_writes_nothing _ tt
           (mkResponse 200 "2001:db8::2" None)
           (mkResponse 200 ""
              (Some (JObj [("result",
                            JArr [JObj [("id", JStr "r1"); ("name", JStr HOSTNAME);
                                        ("type", JStr "AAAA")];
                                  to_json (mkRecord "r2" "AAAA" HOSTNAME "2001:db8::1")]);
                           ("success", JBool true)])))
           (JObj [("id", JStr "r1"); ("name", JStr HOSTNAME); ("type", JStr "AAAA")])
           [to_json (mkRecord "r2" "AAAA" HOSTNAME "2001:db8::1")]
           (KeyError "content")).
  - repeat split; reflexivity.
  - left. reflexivity.
Defined.

(** ** More on what a pass leaves at the provider *)

Lemma same_id_same_record (l : list dns_record) (x y : dns_record) :
  NoDup (ids l) -> In x l -> In y l -> rec_id x = rec_id y -> x = y.
Proof.
  unfold ids. induction l as [| a l IH]; [contradiction |].
  cbn [map]. intros Hnd Hx Hy E. inversion Hnd as [| ? ? Ha Hl]; subst.
  destruct Hx as [-> | Hx], Hy as [-> | Hy]; auto.
  - exfalso. apply Ha. rewrite E. now apply in_map.
  - exfalso. apply Ha. rewrite <- E. now apply in_map.
Qed.

Lemma others_patched (p : dns_record) (rest l : list dns_record) (c : string) :
  NoDup (ids l) ->
  filter matching l = p :: rest ->
  filter (fun r => negb (matching r)) (patched (rec_id p) c l) =
  filter (fun r => negb (matching r)) l.
Proof.
  intros Hnd E.
  assert (Hp : In p l /\ matching p = true).
  { apply filter_In. rewrite E. now left. }
  destruct Hp as (Hp & Hm).
  unfold patched.
  assert (G : forall l', (forall x, In x l' -> In x l) ->
      filter (fun r => negb (matching r))
             (map (fun x => if has_id (rec_id p) x
                            then mkRecord (rec_id p) "AAAA" HOSTNAME c else x) l') =
      filter (fun r => negb (matching r)) l').
  { induction l' as [| x l' IH]; intro Hsub; [reflexivity |].
    cbn [map filter]. rewrite IH by (intros y Hy; apply Hsub; now right).
    destruct (has_id (rec_id p) x) eqn:Ei; [| reflexivity].
    apply String.eqb_eq in Ei.
    assert (x = p) by (apply (same_id_same_record l); auto; apply Hsub; now left).
    subst x. rewrite Hm.
    change (matching (mkRecord (rec_id p) "AAAA" HOSTNAME c)) with true. reflexivity. }
  apply G. auto.
Qed.

Lemma others_survive (rest l : list dns_record) :
  NoDup (ids l) ->
  (forall q, In q rest -> In q l /\ matching q = true) ->
  filter (fun r => negb (matching r)) (remove_all rest l) =
  filter (fun r => negb (matching r)) l.
Proof.
  intros Hnd Hrest. rewrite remove_all_filter, filter_comm.
  rewrite <- (filter_ext_in (fun _ => true)).
  - induction (filter _ l) as [| x t IH]; cbn; congruence.
  - intros x Hx. apply filter_In in Hx as (Hx & Hm). symmetry.
    apply negb_true_iff, not_true_is_false. intro E.
    apply existsb_exists in E as (q & Hq & E).
    unfold has_id in E. apply String.eqb_eq in E.
    destruct (Hrest q Hq) as (Hql & Hqm).
    assert (x = q) by (apply (same_id_same_record l); auto).
    subst x. rewrite Hqm in Hm. discriminate.
Qed.

(** X13. Over a zone whose record identifiers are distinct, a pass leaves
    every record that does not have the configured host name and type AAAA
    as it was, in the same order. *)
Theorem pass_keeps_other_records (z : zone) :
  NoDup (ids (records z)) ->
  filter (fun r => negb (matching r)) (records (final (pass z))) =
  filter (fun r => negb (matching r)) (records z).
Proof.
  intro Hnd. destruct (pass_after_fetch z) as (-> & _). cbv zeta.
  destruct (filter matching (records z)) as [| p rest] eqn:E.
  - cbn [map]. destruct (after_fetch_none z) as (-> & _). cbn [records].
    rewrite filter_app. cbn. apply app_nil_r.
  - destruct (after_fetch_some z p rest (primary_present _ _ _ E)) as (-> & _).
    cbn [records].
    assert (Hrest : forall q, In q rest -> In q (records z) /\ matching q = true).
    { intros q Hq. apply filter_In. rewrite E. now right. }
    destruct (String.eqb (rec_content p) (address z)).
    + now apply others_survive.
    + rewrite <- (others_patched p rest (records z) (address z) Hnd E).
      apply others_survive.
      * unfold patched. now rewrite ids_replaced.
      * intros q Hq. destruct (Hrest q Hq) as (Hql & Hqm). split; [| exact Hqm].
        unfold patched. apply in_map_iff. exists q. split; [| exact Hql].
        unfold has_id. destruct (String.eqb_spec (rec_id q) (rec_id p)) as [Ei | Ei];
          [| reflexivity].
        exfalso.
        pose proof (ids_filter_NoDup matching _ Hnd) as Hnd'. rewrite E in Hnd'.
        inversion Hnd' as [| ? ? Hp _]; subst. apply Hp. rewrite <- Ei.
        unfold ids. now apply in_map.
Qed.

Lemma pass_keeps_other_records_witness :
  filter (fun r => negb (matching r)) (records (final (pass scenario_a))) =
  filter (fun r => negb (matching r)) (records scenario_a).
Proof.
  apply (pass_keeps_other_records scenario_a).
  vm_compute. repeat constructor; simpl; intuition discriminate.
Defined.

(** X14. Over a zone whose record identifiers are distinct and in which
    records match, the one matching record a pass leaves is the first of
    them in listing order: it has that record's identifier, and the resolved
    address as content. *)
Theorem pass_keeps_the_first_match (z : zone) (p : dns_record) (rest : list dns_record) :
  NoDup (ids (records z)) ->
  filter matching (records z) = p :: rest ->
  filter matching (records (final (pass z))) =
    [mkRecord (rec_id p) "AAAA" HOSTNAME (address z)].
Proof.
  intros Hnd E. destruct (pass_after_fetch z) as (-> & _). cbv zeta. rewrite E.
  destruct (after_fetch_some z p rest (primary_present _ _ _ E)) as (-> & _).
  cbn [records]. rewrite matching_remove_all.
  pose proof (ids_filter_NoDup matching _ Hnd) as Hnd'. rewrite E in Hnd'.
  destruct (String.eqb_spec (rec_content p) (address z)) as [Ec | Ec].
  - rewrite E, remove_all_keeps_first by exact Hnd'.
    assert (Hm : matching p = true).
    { apply (proj1 (filter_In matching p (records z))). rewrite E. now left. }
    unfold matching in Hm. apply andb_true_iff in Hm as (Hn & Ht).
    apply String.eqb_eq in Hn, Ht. destruct p as [i t n c]. cbn in *. now subst.
  - rewrite (matching_patched p rest _ _ Hnd E).
    now rewrite remove_all_keeps_first by exact Hnd'.
Qed.

Lemma pass_keeps_the_first_match_witness :
  filter matching (records (final (pass scenario_d))) =
    [mkRecord "r1" "AAAA" HOSTNAME (address scenario_d)].
Proof.
  apply (pass_keeps_the_first_match scenario_d
           (mkRecord "r1" "AAAA" HOSTNAME "2001:db8::1")
           [mkRecord "r2" "AAAA" HOSTNAME "2001:db8::1"]).
  - vm_compute. repeat constructor; simpl; intuition discriminate.
  - reflexivity.
Defined.

Lemma settled_pass_changes_nothing (z : zone) (p : dns_record) :
  filter matching (records z) = [p] ->
  rec_content p = address z ->
  final (pass z) = z.
Proof.
  intros E Ec. destruct (pass_after_fetch z) as (-> & _). cbv zeta. rewrite E.
  destruct (after_fetch_some z p [] (primary_present _ _ _ E)) as (-> & _).
  rewrite Ec, String.eqb_refl. now destruct z.
Qed.

(** X15. Over a zone whose record identifiers are distinct, a second pass
    leaves the provider exactly as the first pass left it. *)
Theorem pass_twice_is_pass_once (z : zone) :
  NoDup (ids (records z)) ->
  final (pass (final (pass z))) = final (pass z).
Proof.
  intro Hnd. destruct (pass_settles z Hnd) as (p & E & Hc & Ha & _).
  apply (settled_pass_changes_nothing _ p E). congruence.
Qed.

Lemma pass_twice_is_pass_once_witness :
  final (pass (final (pass scenario_d))) = final (pass scenario_d).
Proof.
  apply (pass_twice_is_pass_once scenario_d).
  vm_compute. repeat constructor; simpl; intuition discriminate.
Defined.

(** X16. Over a zone whose record identifiers are distinct: when, after a
    pass, the address service reports another address, the next pass issues
    one update of the record the first pass left, to the new address, and
    nothing else; that record then carries the new address. *)
Theorem address_change_is_one_update (z : zone) (b : string) :
  NoDup (ids (records z)) ->
  b <> address z ->
  let moved := mkZone (records (final (pass z))) b in
  exists i,
    writes (events (pass moved)) = [update_request i b] /\
    filter matching (records (final (pass moved))) = [mkRecord i "AAAA" HOSTNAME b].
Proof.
  intros Hnd Hb. cbv zeta.
  destruct (pass_settles z Hnd) as (p & E & Hc & _ & _).
  set (moved := mkZone (records (final (pass z))) b).
  assert (Em : filter matching (records moved) = [p]) by exact E.
  assert (Hndm : NoDup (ids (records moved))) by exact (pass_keeps_ids_distinct z Hnd).
  exists (rec_id p).
  destruct (pass_after_fetch moved) as (Hf & _ & Hcr & Hu & Hd). cbv zeta in *.
  rewrite Em in *.
  destruct (after_fetch_some moved p [] (primary_present _ _ _ Em))
    as (Hf' & _ & Hc' & Hu' & Hd'). cbv zeta in *.
  assert (Ene : String.eqb (rec_content p) (address moved) = false).
  { apply String.eqb_neq. cbn. congruence. }
  rewrite Ene in *. split.
  - unfold writes. rewrite Hcr, Hu, Hd, Hc', Hu', Hd'. reflexivity.
  - rewrite Hf, Hf'. cbn [records remove_all fold_left].
    now rewrite (matching_patched p [] _ _ Hndm Em).
Qed.

Lemma address_change_is_one_update_witness :
  let moved := mkZone (records (final (pass scenario_c))) "2001:db8::a" in
  exists i,
    writes (events (pass moved)) = [update_request i "2001:db8::a"] /\
    filter matching (records (final (pass moved))) =
      [mkRecord i "AAAA" HOSTNAME "2001:db8::a"].
Proof.
  apply (address_change_is_one_update scenario_c "2001:db8::a").
  - vm_compute. repeat constructor; simpl; intuition discriminate.
  - discriminate.
Defined.

(** ** The executions that exit with success *)

Section Exit.

Context {World : Type}.
Variable send : request -> World -> World * outcome Response.

Lemma exit_zero_iff_returns (w : World) :
  exit_status send w = 0%Z <-> returns (__main send w).
Proof.
  unfold exit_status, returns. destruct (result (__main send w)) as [v | e]; split.
  - eauto.
  - reflexivity.
  - discriminate.
  - intros (v & E). discriminate.
Qed.

Lemma exit_zero_or_one (w : World) :
  exit_status send w = 0%Z \/ exit_status send w = 1%Z.
Proof.
  unfold exit_status. destruct (result (__main send w)); auto.
Qed.

Lemma remove_posts_return_iff (l : list json) (w : World) :
  returns (for_each l (remove_post send) w) <->
  Forall removable l /\ Forall answered (events (for_each l (remove_post send) w)).
Proof.
  revert w. induction l as [| post rest IH]; intro w.
  - split; [intros _; split; constructor | intros _; now exists tt].
  - cbn [for_each]. unfold bind. rewrite remove_post_run.
    destruct (subscript post "id") as [id | e] eqn:Eid; cbn [result final events].
    2: { split; [intros (v & Hv); discriminate |].
         intros (H & _). inversion H as [| ? ? ((id & Hid) & _) _]. congruence. }
    destruct (subscript post "content") as [content | e] eqn:Ec; cbn [result final events].
    2: { split; [intros (v & Hv); discriminate |].
         intros (H & _). inversion H as [| ? ? (_ & (c & Hc)) _]. congruence. }
    destruct (send _ w) as [w' [resp | e]]; cbn [result final events].
    + destruct (result_of resp) as [v | e] eqn:Er; cbn [result final events].
      * specialize (IH w'). unfold returns in *. cbn [result final events app].
        split.
        -- intro H. apply IH in H as (Hrest & Hev). split.
           ++ constructor; [split; eauto | exact Hrest].
           ++ repeat constructor; [intros _; eauto | exact Hev].
        -- intros (H & Hev). apply IH. split.
           ++ now inversion H.
           ++ inversion Hev as [| ? ? _ Hev']. now inversion Hev'.
      * split; [intros (v & Hv); discriminate |].
        intros (_ & Hev). inversion Hev as [| ? ? _ Hev'].
        inversion Hev' as [| ? ? Ha _]. cbn in Ha.
        destruct (Ha eq_refl) as (v & Hv). congruence.
    + split; [intros (v & Hv); discriminate |].
      intros (_ & Hev). inversion Hev as [| ? ? _ Hev'].
      inversion Hev' as [| ? ? Ha _]. contradiction.
Qed.

Lemma update_primary_returns_iff (ip : string) (p : json) (rest : list json) (w : World) :
  returns (update_primary send ip (p :: rest) w) <->
  syncable ip p /\ Forall answered (events (update_primary send ip (p :: rest) w)).
Proof.
  rewrite update_primary_run. unfold syncable.
  destruct (subscript p "content") as [content | e] eqn:Ec.
  2: { split; [intros (v & Hv); discriminate |].
       intros ((c & Hc & _) & _). discriminate. }
  destruct (py_eq_str content ip) eqn:Eq.
  - split; [| intros _; now exists tt].
    intros _. split; [| constructor]. exists content. split; [reflexivity | congruence].
  - destruct (subscript p "id") as [id | e] eqn:Eid.
    2: { split; [intros (v & Hv); discriminate |].
         intros ((c & Hc & Hid) & _). injection Hc as <-.
         destruct (Hid Eq) as (id & Hid'). discriminate. }
    cbv zeta. destruct (send _ w) as [w' [resp | e]]; unfold returns; cbn [result events].
    + destruct (result_of resp) as [v | e] eqn:Er.
      * split; [| intros _; now exists tt].
        intros _. split; [exists content; eauto |].
        repeat constructor. intros _. eauto.
      * split; [intros (v & Hv); discriminate |].
        intros (_ & Hev). inversion Hev as [| ? ? _ Hev'].
        inversion Hev' as [| ? ? Ha _]. cbn in Ha.
        destruct (Ha eq_refl) as (v & Hv). congruence.
    + split; [intros (v & Hv); discriminate |].
      intros (_ & Hev). inversion Hev as [| ? ? _ Hev'].
      inversion Hev' as [| ? ? Ha _]. contradiction.
Qed.

Lemma remove_spares_returns_iff (p : json) (rest : list json) (w : World) :
  returns (remove_spares send (p :: rest) w) <->
  Forall removable rest /\ Forall answered (events (remove_spares send (p :: rest) w)).
Proof.
  rewrite remove_spares_run. destruct rest as [| q rest].
  - split; [intros _; split; constructor | intros _; now exists tt].
  - cbv zeta. unfold returns at 1. cbn [result events].
    fold (returns (for_each (q :: rest) (remove_post send) w)).
    rewrite remove_posts_return_iff. split.
    + intros (H & Hev). split; [exact H | constructor; [exact I | exact Hev]].
    + intros (H & Hev). split; [exact H | now inversion Hev].
Qed.

Lemma after_fetch_returns_iff (ip : string) (stored_posts : list json) (w : World) :
  returns (after_fetch send ip stored_posts w) <->
  handled ip stored_posts /\ Forall answered (events (after_fetch send ip stored_posts w)).
Proof.
  destruct stored_posts as [| p rest]; cbn [handled].
  - rewrite after_fetch_nil. cbv zeta.
    destruct (send _ w) as [w' [resp | e]]; unfold returns; cbn [result events].
    + split; [| intros _; now exists 0%Z].
      intros _. split; [exact I |]. repeat constructor. discriminate.
    + split; [intros (v & Hv); discriminate |].
      intros (_ & Hev). inversion Hev as [| ? ? _ Hev'].
      inversion Hev' as [| ? ? Ha _]. contradiction.
  - rewrite after_fetch_cons. cbv zeta.
    pose proof (update_primary_returns_iff ip p rest w) as Hu.
    destruct (result (update_primary send ip (p :: rest) w)) as [v | e] eqn:Er.
    + assert (Hret : returns (update_primary send ip (p :: rest) w))
        by (exists v; exact Er).
      apply Hu in Hret as (Hp & Hevu).
      pose proof (remove_spares_returns_iff p rest
                    (final (update_primary send ip (p :: rest) w))) as Hs.
      unfold returns at 1. cbn [result events]. split.
      * intros (v' & Hv').
        assert (Hrs : returns (remove_spares send (p :: rest)
                                 (final (update_primary send ip (p :: rest) w)))).
        { unfold returns.
          destruct (result (remove_spares send (p :: rest) _)); [eauto | discriminate]. }
        apply Hs in Hrs as (Hrest & Hevs).
        repeat split; [exact Hp | exact Hrest | apply Forall_app; auto].
      * intros ((_ & Hrest) & Hev). apply Forall_app in Hev as (_ & Hevs).
        destruct (proj2 Hs (conj Hrest Hevs)) as (v' & ->). now exists 0%Z.
    + unfold returns at 1. cbn [result events].
      split; [intros (v & Hv); discriminate |].
      intros ((Hp & _) & Hev).
      destruct (proj2 Hu (conj Hp Hev)) as (v & Hv). congruence.
Qed.

Lemma main_returns_iff_clean (w : World) : returns (__main send w) <-> clean send w.
Proof.
  unfold clean. split.
  - intro Hret.
    destruct (main_not_fetched send w) as [(ip & resp & sp & F) | (e & He & _)].
    2: { destruct Hret as (v & Hv). congruence. }
    exists ip, resp, sp. split; [exact F |].
    rewrite (main_fetched send w ip resp sp F) in *. cbv zeta in *.
    unfold returns in Hret. cbn [result events] in *.
    apply (after_fetch_returns_iff (text ip) sp (after_reads send w)) in Hret
      as (Hh & Hev).
    split; [exact Hh |].
    constructor; [discriminate |]. constructor; [| exact Hev].
    intros _. destruct F as (_ & _ & F). unfold stored_posts_in in F.
    destruct (result_of resp); [eauto | discriminate].
  - intros (ip & resp & sp & F & Hh & Hev).
    rewrite (main_fetched send w ip resp sp F) in *. cbv zeta in *.
    cbn [events] in Hev. inversion Hev as [| ? ? _ Hev']. inversion Hev' as [| ? ? _ Hev''].
    destruct (proj2 (after_fetch_returns_iff (text ip) sp (after_reads send w))
                    (conj Hh Hev'')) as (v & Hv).
    exists v. exact Hv.
Qed.

End Exit.

(** C7, amended.  The process exits with the success status exactly for
    the executions in which no exception escapes: both reads are answered
    and the listing can be filtered, every request the run issues returns,
    every listing, update and delete answer has a ['result'] member, and the
    records found carry the fields the run reads from them.  Status codes
    and what the provider did with the writes play no part.  Every other
    execution exits with status 1. *)
Theorem exit_success_iff_clean
    {World : Type} (send : request -> World -> World * outcome Response) (w : World) :
  (exit_status send w = 0%Z <-> clean send w) /\
  (exit_status send w = 1%Z <-> ~ clean send w).
Proof.
  pose proof (exit_zero_iff_returns send w) as H0.
  pose proof (main_returns_iff_clean send w) as Hc.
  split; [tauto |]. split.
  - intros E1 Hclean. apply Hc, H0 in Hclean. congruence.
  - intro Hn. destruct (exit_zero_or_one send w) as [E | E]; [| exact E].
    exfalso. apply Hn, Hc, H0, E.
Qed.

Lemma exit_success_iff_clean_witness :
  clean broken_update scenario_c /\ ~ clean bad_gateway tt.
Proof.
  split.
  - apply (proj1 (proj1 (exit_success_iff_clean broken_update scenario_c))).
    reflexivity.
  - apply (proj1 (proj2 (exit_success_iff_clean bad_gateway tt))).
    reflexivity.
Defined.
